(** * Verification of intracursus_import/import_scores.py

    Shallow embedding of the reconciliation engine of [import_scores.py]:
    name normalisation ([norm]), the three matchers ([match], [contain],
    [partial_match]), the reconciler ([translate_names]), the extractors
    ([get_other_data], [get_intracursus_data]), the merge
    ([update_intracursus_data]) and the write-back loop of [fill_scores].

    Modelling conventions.
    - A Python [str] is a list of Unicode code points ([pystr]).
    - A spreadsheet cell is text, an integer or a float; a float is kept
      as its Python [repr] (no float arithmetic happens in this code).
    - A Python [set] of strings is a [gset pystr]; a [dict] is a [gmap].
      Python iterates a set in an order fixed by string hashing, which the
      program does not control: the code that iterates a set is written in
      a Section over an arbitrary enumeration [iter] of each set.
    - Exceptions are the [Err] branch of the result type [res]. *)

From stdpp Require Import base gmap sets list list_relations strings pretty.
From Stdlib Require Import ZArith.

Open Scope Z_scope.

(* ------------------------------------------------------------------ *)
(** ** Python strings and cells *)

(** A Python string: its sequence of code points. *)
Abbreviation pystr := (list Z).

(** ASCII literal to code points, for writing literals of the source. *)
Definition u (s : string) : pystr :=
  map (fun a => Z.of_nat (Ascii.nat_of_ascii a)) (String.list_ascii_of_string s).

(** Spreadsheet cells, as pyexcel returns them: [str | int | float].
    A float is carried as its Python [repr]. *)
Inductive cell :=
| CStr (s : pystr)
| CInt (z : Z)
| CFloat (repr : pystr).

Abbreviation SheetData := (list (list cell)).

(** Python's exceptions raised on the paths modelled here. *)
Inductive py_error :=
| DuplicateNamesError (name : pystr) (count : nat)
| UnknownNameError (name : pystr)
| NothingToMergeError
| AssertionError
| KeyError
| IndexError
| ValueError
| TypeError
| StopIteration.

(** Computations that may raise. *)
Definition res (A : Type) : Type := py_error + A.
Definition Ok {A} (a : A) : res A := inr a.
Definition Err {A} (e : py_error) : res A := inl e.

Global Instance res_ret : MRet res := fun _ a => inr a.
Global Instance res_bind : MBind res := fun _ _ k m =>
  match m with inl e => inl e | inr a => k a end.

Fixpoint mapM {A B} (f : A -> res B) (l : list A) : res (list B) :=
  match l with
  | [] => Ok []
  | x :: l' => y ← f x; ys ← mapM f l'; Ok (y :: ys)
  end.

(** [str.isspace] on one code point (Python's whitespace set, used by
    [str.split()] and [str.strip()]). *)
Definition is_space (c : Z) : bool :=
  ((9 <=? c) && (c <=? 13)) || ((28 <=? c) && (c <=? 32)) || (c =? 133)
  || (c =? 160) || (c =? 5760) || ((8192 <=? c) && (c <=? 8202))
  || (c =? 8232) || (c =? 8233) || (c =? 8239) || (c =? 8287)
  || (c =? 12288).

(** [str.split()] without argument: split on runs of whitespace, drop
    empty pieces. [cur] is the word being read, reversed. *)
Fixpoint split_aux (cur : pystr) (s : pystr) : list pystr :=
  match s with
  | [] => match cur with [] => [] | _ => [reverse cur] end
  | c :: s' =>
      if is_space c then
        match cur with
        | [] => split_aux [] s'
        | _ => reverse cur :: split_aux [] s'
        end
      else split_aux (c :: cur) s'
  end.

Definition py_split (s : pystr) : list pystr := split_aux [] s.

(** [sep.join(l)]. *)
Fixpoint py_join (sep : pystr) (l : list pystr) : pystr :=
  match l with
  | [] => []
  | [x] => x
  | x :: l' => x ++ sep ++ py_join sep l'
  end.

(** [str(val).strip()] is non-empty. *)
Definition strip_nonempty (s : pystr) : bool :=
  existsb (fun c => negb (is_space c)) s.

Definition startswith (s p : pystr) : bool :=
  bool_decide (take (length p) s = p).

(** [str(cell)] *)
Definition py_str (v : cell) : pystr :=
  match v with
  | CStr s => s
  | CInt z => u (pretty z)
  | CFloat r => r
  end.

Definition is_str (v : cell) : bool :=
  match v with CStr _ => true | _ => false end.

(** [a == b] on cells; the code compares a cell only with a text
    literal, where this is Python's [==]. *)
Definition cell_eqb (a b : cell) : bool :=
  match a, b with
  | CStr x, CStr y => bool_decide (x = y)
  | CInt x, CInt y => x =? y
  | CFloat x, CFloat y => bool_decide (x = y)
  | _, _ => false
  end.

(* ------------------------------------------------------------------ *)
(** ** Name normaliser: [norm] *)

(** The code points that [str.casefold] changes, with their images
    (full case folding, Unicode 14.0, the database of Python 3.11): every
    code point [c] with [chr(c).casefold() != chr(c)], in increasing order. *)
Definition CASEFOLD_TABLE : list (Z * list Z) := [
  (65, [97]); (66, [98]); (67, [99]); (68, [100]); (69, [101]); (70, [102]);
  (71, [103]); (72, [104]); (73, [105]); (74, [106]); (75, [107]); (76, [108]);
  (77, [109]); (78, [110]); (79, [111]); (80, [112]); (81, [113]); (82, [114]);
  (83, [115]); (84, [116]); (85, [117]); (86, [118]); (87, [119]); (88, [120]);
  (89, [121]); (90, [122]); (181, [956]); (192, [224]); (193, [225]); (194, [226]);
  (195, [227]); (196, [228]); (197, [229]); (198, [230]); (199, [231]); (200, [232]);
  (201, [233]); (202, [234]); (203, [235]); (204, [236]); (205, [237]); (206, [238]);
  (207, [239]); (208, [240]); (209, [241]); (210, [242]); (211, [243]); (212, [244]);
  (213, [245]); (214, [246]); (216, [248]); (217, [249]); (218, [250]); (219, [251]);
  (220, [252]); (221, [253]); (222, [254]); (223, [115; 115]); (256, [257]);
  (258, [259]); (260, [261]); (262, [263]); (264, [265]); (266, [267]); (268, [269]);
  (270, [271]); (272, [273]); (274, [275]); (276, [277]); (278, [279]); (280, [281]);
  (282, [283]); (284, [285]); (286, [287]); (288, [289]); (290, [291]); (292, [293]);
  (294, [295]); (296, [297]); (298, [299]); (300, [301]); (302, [303]);
  (304, [105; 775]); (306, [307]); (308, [309]); (310, [311]); (313, [314]);
  (315, [316]); (317, [318]); (319, [320]); (321, [322]); (323, [324]); (325, [326]);
  (327, [328]); (329, [700; 110]); (330, [331]); (332, [333]); (334, [335]);
  (336, [337]); (338, [339]); (340, [341]); (342, [343]); (344, [345]); (346, [347]);
  (348, [349]); (350, [351]); (352, [353]); (354, [355]); (356, [357]); (358, [359]);
  (360, [361]); (362, [363]); (364, [365]); (366, [367]); (368, [369]); (370, [371]);
  (372, [373]); (374, [375]); (376, [255]); (377, [378]); (379, [380]); (381, [382]);
  (383, [115]); (385, [595]); (386, [387]); (388, [389]); (390, [596]); (391, [392]);
  (393, [598]); (394, [599]); (395, [396]); (398, [477]); (399, [601]); (400, [603]);
  (401, [402]); (403, [608]); (404, [611]); (406, [617]); (407, [616]); (408, [409]);
  (412, [623]); (413, [626]); (415, [629]); (416, [417]); (418, [419]); (420, [421]);
  (422, [640]); (423, [424]); (425, [643]); (428, [429]); (430, [648]); (431, [432]);
  (433, [650]); (434, [651]); (435, [436]); (437, [438]); (439, [658]); (440, [441]);
  (444, [445]); (452, [454]); (453, [454]); (455, [457]); (456, [457]); (458, [460]);
  (459, [460]); (461, [462]); (463, [464]); (465, [466]); (467, [468]); (469, [470]);
  (471, [472]); (473, [474]); (475, [476]); (478, [479]); (480, [481]); (482, [483]);
  (484, [485]); (486, [487]); (488, [489]); (490, [491]); (492, [493]); (494, [495]);
  (496, [106; 780]); (497, [499]); (498, [499]); (500, [501]); (502, [405]);
  (503, [447]); (504, [505]); (506, [507]); (508, [509]); (510, [511]); (512, [513]);
  (514, [515]); (516, [517]); (518, [519]); (520, [521]); (522, [523]); (524, [525]);
  (526, [527]); (528, [529]); (530, [531]); (532, [533]); (534, [535]); (536, [537]);
  (538, [539]); (540, [541]); (542, [543]); (544, [414]); (546, [547]); (548, [549]);
  (550, [551]); (552, [553]); (554, [555]); (556, [557]); (558, [559]); (560, [561]);
  (562, [563]); (570, [11365]); (571, [572]); (573, [410]); (574, [11366]);
  (577, [578]); (579, [384]); (580, [649]); (581, [652]); (582, [583]); (584, [585]);
  (586, [587]); (588, [589]); (590, [591]); (837, [953]); (880, [881]); (882, [883]);
  (886, [887]); (895, [1011]); (902, [940]); (904, [941]); (905, [942]); (906, [943]);
  (908, [972]); (910, [973]); (911, [974]); (912, [953; 776; 769]); (913, [945]);
  (914, [946]); (915, [947]); (916, [948]); (917, [949]); (918, [950]); (919, [951]);
  (920, [952]); (921, [953]); (922, [954]); (923, [955]); (924, [956]); (925, [957]);
  (926, [958]); (927, [959]); (928, [960]); (929, [961]); (931, [963]); (932, [964]);
  (933, [965]); (934, [966]); (935, [967]); (936, [968]); (937, [969]); (938, [970]);
  (939, [971]); (944, [965; 776; 769]); (962, [963]); (975, [983]); (976, [946]);
  (977, [952]); (981, [966]); (982, [960]); (984, [985]); (986, [987]); (988, [989]);
  (990, [991]); (992, [993]); (994, [995]); (996, [997]); (998, [999]); (1000, [1001]);
  (1002, [1003]); (1004, [1005]); (1006, [1007]); (1008, [954]); (1009, [961]);
  (1012, [952]); (1013, [949]); (1015, [1016]); (1017, [1010]); (1018, [1019]);
  (1021, [891]); (1022, [892]); (1023, [893]); (1024, [1104]); (1025, [1105]);
  (1026, [1106]); (1027, [1107]); (1028, [1108]); (1029, [1109]); (1030, [1110]);
  (1031, [1111]); (1032, [1112]); (1033, [1113]); (1034, [1114]); (1035, [1115]);
  (1036, [1116]); (1037, [1117]); (1038, [1118]); (1039, [1119]); (1040, [1072]);
  (1041, [1073]); (1042, [1074]); (1043, [1075]); (1044, [1076]); (1045, [1077]);
  (1046, [1078]); (1047, [1079]); (1048, [1080]); (1049, [1081]); (1050, [1082]);
  (1051, [1083]); (1052, [1084]); (1053, [1085]); (1054, [1086]); (1055, [1087]);
  (1056, [1088]); (1057, [1089]); (1058, [1090]); (1059, [1091]); (1060, [1092]);
  (1061, [1093]); (1062, [1094]); (1063, [1095]); (1064, [1096]); (1065, [1097]);
  (1066, [1098]); (1067, [1099]); (1068, [1100]); (1069, [1101]); (1070, [1102]);
  (1071, [1103]); (1120, [1121]); (1122, [1123]); (1124, [1125]); (1126, [1127]);
  (1128, [1129]); (1130, [1131]); (1132, [1133]); (1134, [1135]); (1136, [1137]);
  (1138, [1139]); (1140, [1141]); (1142, [1143]); (1144, [1145]); (1146, [1147]);
  (1148, [1149]); (1150, [1151]); (1152, [1153]); (1162, [1163]); (1164, [1165]);
  (1166, [1167]); (1168, [1169]); (1170, [1171]); (1172, [1173]); (1174, [1175]);
  (1176, [1177]); (1178, [1179]); (1180, [1181]); (1182, [1183]); (1184, [1185]);
  (1186, [1187]); (1188, [1189]); (1190, [1191]); (1192, [1193]); (1194, [1195]);
  (1196, [1197]); (1198, [1199]); (1200, [1201]); (1202, [1203]); (1204, [1205]);
  (1206, [1207]); (1208, [1209]); (1210, [1211]); (1212, [1213]); (1214, [1215]);
  (1216, [1231]); (1217, [1218]); (1219, [1220]); (1221, [1222]); (1223, [1224]);
  (1225, [1226]); (1227, [1228]); (1229, [1230]); (1232, [1233]); (1234, [1235]);
  (1236, [1237]); (1238, [1239]); (1240, [1241]); (1242, [1243]); (1244, [1245]);
  (1246, [1247]); (1248, [1249]); (1250, [1251]); (1252, [1253]); (1254, [1255]);
  (1256, [1257]); (1258, [1259]); (1260, [1261]); (1262, [1263]); (1264, [1265]);
  (1266, [1267]); (1268, [1269]); (1270, [1271]); (1272, [1273]); (1274, [1275]);
  (1276, [1277]); (1278, [1279]); (1280, [1281]); (1282, [1283]); (1284, [1285]);
  (1286, [1287]); (1288, [1289]); (1290, [1291]); (1292, [1293]); (1294, [1295]);
  (1296, [1297]); (1298, [1299]); (1300, [1301]); (1302, [1303]); (1304, [1305]);
  (1306, [1307]); (1308, [1309]); (1310, [1311]); (1312, [1313]); (1314, [1315]);
  (1316, [1317]); (1318, [1319]); (1320, [1321]); (1322, [1323]); (1324, [1325]);
  (1326, [1327]); (1329, [1377]); (1330, [1378]); (1331, [1379]); (1332, [1380]);
  (1333, [1381]); (1334, [1382]); (1335, [1383]); (1336, [1384]); (1337, [1385]);
  (1338, [1386]); (1339, [1387]); (1340, [1388]); (1341, [1389]); (1342, [1390]);
  (1343, [1391]); (1344, [1392]); (1345, [1393]); (1346, [1394]); (1347, [1395]);
  (1348, [1396]); (1349, [1397]); (1350, [1398]); (1351, [1399]); (1352, [1400]);
  (1353, [1401]); (1354, [1402]); (1355, [1403]); (1356, [1404]); (1357, [1405]);
  (1358, [1406]); (1359, [1407]); (1360, [1408]); (1361, [1409]); (1362, [1410]);
  (1363, [1411]); (1364, [1412]); (1365, [1413]); (1366, [1414]); (1415, [1381; 1410]);
  (4256, [11520]); (4257, [11521]); (4258, [11522]); (4259, [11523]); (4260, [11524]);
  (4261, [11525]); (4262, [11526]); (4263, [11527]); (4264, [11528]); (4265, [11529]);
  (4266, [11530]); (4267, [11531]); (4268, [11532]); (4269, [11533]); (4270, [11534]);
  (4271, [11535]); (4272, [11536]); (4273, [11537]); (4274, [11538]); (4275, [11539]);
  (4276, [11540]); (4277, [11541]); (4278, [11542]); (4279, [11543]); (4280, [11544]);
  (4281, [11545]); (4282, [11546]); (4283, [11547]); (4284, [11548]); (4285, [11549]);
  (4286, [11550]); (4287, [11551]); (4288, [11552]); (4289, [11553]); (4290, [11554]);
  (4291, [11555]); (4292, [11556]); (4293, [11557]); (4295, [11559]); (4301, [11565]);
  (5112, [5104]); (5113, [5105]); (5114, [5106]); (5115, [5107]); (5116, [5108]);
  (5117, [5109]); (7296, [1074]); (7297, [1076]); (7298, [1086]); (7299, [1089]);
  (7300, [1090]); (7301, [1090]); (7302, [1098]); (7303, [1123]); (7304, [42571]);
  (7312, [4304]); (7313, [4305]); (7314, [4306]); (7315, [4307]); (7316, [4308]);
  (7317, [4309]); (7318, [4310]); (7319, [4311]); (7320, [4312]); (7321, [4313]);
  (7322, [4314]); (7323, [4315]); (7324, [4316]); (7325, [4317]); (7326, [4318]);
  (7327, [4319]); (7328, [4320]); (7329, [4321]); (7330, [4322]); (7331, [4323]);
  (7332, [4324]); (7333, [4325]); (7334, [4326]); (7335, [4327]); (7336, [4328]);
  (7337, [4329]); (7338, [4330]); (7339, [4331]); (7340, [4332]); (7341, [4333]);
  (7342, [4334]); (7343, [4335]); (7344, [4336]); (7345, [4337]); (7346, [4338]);
  (7347, [4339]); (7348, [4340]); (7349, [4341]); (7350, [4342]); (7351, [4343]);
  (7352, [4344]); (7353, [4345]); (7354, [4346]); (7357, [4349]); (7358, [4350]);
  (7359, [4351]); (7680, [7681]); (7682, [7683]); (7684, [7685]); (7686, [7687]);
  (7688, [7689]); (7690, [7691]); (7692, [7693]); (7694, [7695]); (7696, [7697]);
  (7698, [7699]); (7700, [7701]); (7702, [7703]); (7704, [7705]); (7706, [7707]);
  (7708, [7709]); (7710, [7711]); (7712, [7713]); (7714, [7715]); (7716, [7717]);
  (7718, [7719]); (7720, [7721]); (7722, [7723]); (7724, [7725]); (7726, [7727]);
  (7728, [7729]); (7730, [7731]); (7732, [7733]); (7734, [7735]); (7736, [7737]);
  (7738, [7739]); (7740, [7741]); (7742, [7743]); (7744, [7745]); (7746, [7747]);
  (7748, [7749]); (7750, [7751]); (7752, [7753]); (7754, [7755]); (7756, [7757]);
  (7758, [7759]); (7760, [7761]); (7762, [7763]); (7764, [7765]); (7766, [7767]);
  (7768, [7769]); (7770, [7771]); (7772, [7773]); (7774, [7775]); (7776, [7777]);
  (7778, [7779]); (7780, [7781]); (7782, [7783]); (7784, [7785]); (7786, [7787]);
  (7788, [7789]); (7790, [7791]); (7792, [7793]); (7794, [7795]); (7796, [7797]);
  (7798, [7799]); (7800, [7801]); (7802, [7803]); (7804, [7805]); (7806, [7807]);
  (7808, [7809]); (7810, [7811]); (7812, [7813]); (7814, [7815]); (7816, [7817]);
  (7818, [7819]); (7820, [7821]); (7822, [7823]); (7824, [7825]); (7826, [7827]);
  (7828, [7829]); (7830, [104; 817]); (7831, [116; 776]); (7832, [119; 778]);
  (7833, [121; 778]); (7834, [97; 702]); (7835, [7777]); (7838, [115; 115]);
  (7840, [7841]); (7842, [7843]); (7844, [7845]); (7846, [7847]); (7848, [7849]);
  (7850, [7851]); (7852, [7853]); (7854, [7855]); (7856, [7857]); (7858, [7859]);
  (7860, [7861]); (7862, [7863]); (7864, [7865]); (7866, [7867]); (7868, [7869]);
  (7870, [7871]); (7872, [7873]); (7874, [7875]); (7876, [7877]); (7878, [7879]);
  (7880, [7881]); (7882, [7883]); (7884, [7885]); (7886, [7887]); (7888, [7889]);
  (7890, [7891]); (7892, [7893]); (7894, [7895]); (7896, [7897]); (7898, [7899]);
  (7900, [7901]); (7902, [7903]); (7904, [7905]); (7906, [7907]); (7908, [7909]);
  (7910, [7911]); (7912, [7913]); (7914, [7915]); (7916, [7917]); (7918, [7919]);
  (7920, [7921]); (7922, [7923]); (7924, [7925]); (7926, [7927]); (7928, [7929]);
  (7930, [7931]); (7932, [7933]); (7934, [7935]); (7944, [7936]); (7945, [7937]);
  (7946, [7938]); (7947, [7939]); (7948, [7940]); (7949, [7941]); (7950, [7942]);
  (7951, [7943]); (7960, [7952]); (7961, [7953]); (7962, [7954]); (7963, [7955]);
  (7964, [7956]); (7965, [7957]); (7976, [7968]); (7977, [7969]); (7978, [7970]);
  (7979, [7971]); (7980, [7972]); (7981, [7973]); (7982, [7974]); (7983, [7975]);
  (7992, [7984]); (7993, [7985]); (7994, [7986]); (7995, [7987]); (7996, [7988]);
  (7997, [7989]); (7998, [7990]); (7999, [7991]); (8008, [8000]); (8009, [8001]);
  (8010, [8002]); (8011, [8003]); (8012, [8004]); (8013, [8005]); (8016, [965; 787]);
  (8018, [965; 787; 768]); (8020, [965; 787; 769]); (8022, [965; 787; 834]);
  (8025, [8017]); (8027, [8019]); (8029, [8021]); (8031, [8023]); (8040, [8032]);
  (8041, [8033]); (8042, [8034]); (8043, [8035]); (8044, [8036]); (8045, [8037]);
  (8046, [8038]); (8047, [8039]); (8064, [7936; 953]); (8065, [7937; 953]);
  (8066, [7938; 953]); (8067, [7939; 953]); (8068, [7940; 953]); (8069, [7941; 953]);
  (8070, [7942; 953]); (8071, [7943; 953]); (8072, [7936; 953]); (8073, [7937; 953]);
  (8074, [7938; 953]); (8075, [7939; 953]); (8076, [7940; 953]); (8077, [7941; 953]);
  (8078, [7942; 953]); (8079, [7943; 953]); (8080, [7968; 953]); (8081, [7969; 953]);
  (8082, [7970; 953]); (8083, [7971; 953]); (8084, [7972; 953]); (8085, [7973; 953]);
  (8086, [7974; 953]); (8087, [7975; 953]); (8088, [7968; 953]); (8089, [7969; 953]);
  (8090, [7970; 953]); (8091, [7971; 953]); (8092, [7972; 953]); (8093, [7973; 953]);
  (8094, [7974; 953]); (8095, [7975; 953]); (8096, [8032; 953]); (8097, [8033; 953]);
  (8098, [8034; 953]); (8099, [8035; 953]); (8100, [8036; 953]); (8101, [8037; 953]);
  (8102, [8038; 953]); (8103, [8039; 953]); (8104, [8032; 953]); (8105, [8033; 953]);
  (8106, [8034; 953]); (8107, [8035; 953]); (8108, [8036; 953]); (8109, [8037; 953]);
  (8110, [8038; 953]); (8111, [8039; 953]); (8114, [8048; 953]); (8115, [945; 953]);
  (8116, [940; 953]); (8118, [945; 834]); (8119, [945; 834; 953]); (8120, [8112]);
  (8121, [8113]); (8122, [8048]); (8123, [8049]); (8124, [945; 953]); (8126, [953]);
  (8130, [8052; 953]); (8131, [951; 953]); (8132, [942; 953]); (8134, [951; 834]);
  (8135, [951; 834; 953]); (8136, [8050]); (8137, [8051]); (8138, [8052]);
  (8139, [8053]); (8140, [951; 953]); (8146, [953; 776; 768]); (8147, [953; 776; 769]);
  (8150, [953; 834]); (8151, [953; 776; 834]); (8152, [8144]); (8153, [8145]);
  (8154, [8054]); (8155, [8055]); (8162, [965; 776; 768]); (8163, [965; 776; 769]);
  (8164, [961; 787]); (8166, [965; 834]); (8167, [965; 776; 834]); (8168, [8160]);
  (8169, [8161]); (8170, [8058]); (8171, [8059]); (8172, [8165]); (8178, [8060; 953]);
  (8179, [969; 953]); (8180, [974; 953]); (8182, [969; 834]); (8183, [969; 834; 953]);
  (8184, [8056]); (8185, [8057]); (8186, [8060]); (8187, [8061]); (8188, [969; 953]);
  (8486, [969]); (8490, [107]); (8491, [229]); (8498, [8526]); (8544, [8560]);
  (8545, [8561]); (8546, [8562]); (8547, [8563]); (8548, [8564]); (8549, [8565]);
  (8550, [8566]); (8551, [8567]); (8552, [8568]); (8553, [8569]); (8554, [8570]);
  (8555, [8571]); (8556, [8572]); (8557, [8573]); (8558, [8574]); (8559, [8575]);
  (8579, [8580]); (9398, [9424]); (9399, [9425]); (9400, [9426]); (9401, [9427]);
  (9402, [9428]); (9403, [9429]); (9404, [9430]); (9405, [9431]); (9406, [9432]);
  (9407, [9433]); (9408, [9434]); (9409, [9435]); (9410, [9436]); (9411, [9437]);
  (9412, [9438]); (9413, [9439]); (9414, [9440]); (9415, [9441]); (9416, [9442]);
  (9417, [9443]); (9418, [9444]); (9419, [9445]); (9420, [9446]); (9421, [9447]);
  (9422, [9448]); (9423, [9449]); (11264, [11312]); (11265, [11313]); (11266, [11314]);
  (11267, [11315]); (11268, [11316]); (11269, [11317]); (11270, [11318]);
  (11271, [11319]); (11272, [11320]); (11273, [11321]); (11274, [11322]);
  (11275, [11323]); (11276, [11324]); (11277, [11325]); (11278, [11326]);
  (11279, [11327]); (11280, [11328]); (11281, [11329]); (11282, [11330]);
  (11283, [11331]); (11284, [11332]); (11285, [11333]); (11286, [11334]);
  (11287, [11335]); (11288, [11336]); (11289, [11337]); (11290, [11338]);
  (11291, [11339]); (11292, [11340]); (11293, [11341]); (11294, [11342]);
  (11295, [11343]); (11296, [11344]); (11297, [11345]); (11298, [11346]);
  (11299, [11347]); (11300, [11348]); (11301, [11349]); (11302, [11350]);
  (11303, [11351]); (11304, [11352]); (11305, [11353]); (11306, [11354]);
  (11307, [11355]); (11308, [11356]); (11309, [11357]); (11310, [11358]);
  (11311, [11359]); (11360, [11361]); (11362, [619]); (11363, [7549]); (11364, [637]);
  (11367, [11368]); (11369, [11370]); (11371, [11372]); (11373, [593]); (11374, [625]);
  (11375, [592]); (11376, [594]); (11378, [11379]); (11381, [11382]); (11390, [575]);
  (11391, [576]); (11392, [11393]); (11394, [11395]); (11396, [11397]);
  (11398, [11399]); (11400, [11401]); (11402, [11403]); (11404, [11405]);
  (11406, [11407]); (11408, [11409]); (11410, [11411]); (11412, [11413]);
  (11414, [11415]); (11416, [11417]); (11418, [11419]); (11420, [11421]);
  (11422, [11423]); (11424, [11425]); (11426, [11427]); (11428, [11429]);
  (11430, [11431]); (11432, [11433]); (11434, [11435]); (11436, [11437]);
  (11438, [11439]); (11440, [11441]); (11442, [11443]); (11444, [11445]);
  (11446, [11447]); (11448, [11449]); (11450, [11451]); (11452, [11453]);
  (11454, [11455]); (11456, [11457]); (11458, [11459]); (11460, [11461]);
  (11462, [11463]); (11464, [11465]); (11466, [11467]); (11468, [11469]);
  (11470, [11471]); (11472, [11473]); (11474, [11475]); (11476, [11477]);
  (11478, [11479]); (11480, [11481]); (11482, [11483]); (11484, [11485]);
  (11486, [11487]); (11488, [11489]); (11490, [11491]); (11499, [11500]);
  (11501, [11502]); (11506, [11507]); (42560, [42561]); (42562, [42563]);
  (42564, [42565]); (42566, [42567]); (42568, [42569]); (42570, [42571]);
  (42572, [42573]); (42574, [42575]); (42576, [42577]); (42578, [42579]);
  (42580, [42581]); (42582, [42583]); (42584, [42585]); (42586, [42587]);
  (42588, [42589]); (42590, [42591]); (42592, [42593]); (42594, [42595]);
  (42596, [42597]); (42598, [42599]); (42600, [42601]); (42602, [42603]);
  (42604, [42605]); (42624, [42625]); (42626, [42627]); (42628, [42629]);
  (42630, [42631]); (42632, [42633]); (42634, [42635]); (42636, [42637]);
  (42638, [42639]); (42640, [42641]); (42642, [42643]); (42644, [42645]);
  (42646, [42647]); (42648, [42649]); (42650, [42651]); (42786, [42787]);
  (42788, [42789]); (42790, [42791]); (42792, [42793]); (42794, [42795]);
  (42796, [42797]); (42798, [42799]); (42802, [42803]); (42804, [42805]);
  (42806, [42807]); (42808, [42809]); (42810, [42811]); (42812, [42813]);
  (42814, [42815]); (42816, [42817]); (42818, [42819]); (42820, [42821]);
  (42822, [42823]); (42824, [42825]); (42826, [42827]); (42828, [42829]);
  (42830, [42831]); (42832, [42833]); (42834, [42835]); (42836, [42837]);
  (42838, [42839]); (42840, [42841]); (42842, [42843]); (42844, [42845]);
  (42846, [42847]); (42848, [42849]); (42850, [42851]); (42852, [42853]);
  (42854, [42855]); (42856, [42857]); (42858, [42859]); (42860, [42861]);
  (42862, [42863]); (42873, [42874]); (42875, [42876]); (42877, [7545]);
  (42878, [42879]); (42880, [42881]); (42882, [42883]); (42884, [42885]);
  (42886, [42887]); (42891, [42892]); (42893, [613]); (42896, [42897]);
  (42898, [42899]); (42902, [42903]); (42904, [42905]); (42906, [42907]);
  (42908, [42909]); (42910, [42911]); (42912, [42913]); (42914, [42915]);
  (42916, [42917]); (42918, [42919]); (42920, [42921]); (42922, [614]); (42923, [604]);
  (42924, [609]); (42925, [620]); (42926, [618]); (42928, [670]); (42929, [647]);
  (42930, [669]); (42931, [43859]); (42932, [42933]); (42934, [42935]);
  (42936, [42937]); (42938, [42939]); (42940, [42941]); (42942, [42943]);
  (42944, [42945]); (42946, [42947]); (42948, [42900]); (42949, [642]);
  (42950, [7566]); (42951, [42952]); (42953, [42954]); (42960, [42961]);
  (42966, [42967]); (42968, [42969]); (42997, [42998]); (43888, [5024]);
  (43889, [5025]); (43890, [5026]); (43891, [5027]); (43892, [5028]); (43893, [5029]);
  (43894, [5030]); (43895, [5031]); (43896, [5032]); (43897, [5033]); (43898, [5034]);
  (43899, [5035]); (43900, [5036]); (43901, [5037]); (43902, [5038]); (43903, [5039]);
  (43904, [5040]); (43905, [5041]); (43906, [5042]); (43907, [5043]); (43908, [5044]);
  (43909, [5045]); (43910, [5046]); (43911, [5047]); (43912, [5048]); (43913, [5049]);
  (43914, [5050]); (43915, [5051]); (43916, [5052]); (43917, [5053]); (43918, [5054]);
  (43919, [5055]); (43920, [5056]); (43921, [5057]); (43922, [5058]); (43923, [5059]);
  (43924, [5060]); (43925, [5061]); (43926, [5062]); (43927, [5063]); (43928, [5064]);
  (43929, [5065]); (43930, [5066]); (43931, [5067]); (43932, [5068]); (43933, [5069]);
  (43934, [5070]); (43935, [5071]); (43936, [5072]); (43937, [5073]); (43938, [5074]);
  (43939, [5075]); (43940, [5076]); (43941, [5077]); (43942, [5078]); (43943, [5079]);
  (43944, [5080]); (43945, [5081]); (43946, [5082]); (43947, [5083]); (43948, [5084]);
  (43949, [5085]); (43950, [5086]); (43951, [5087]); (43952, [5088]); (43953, [5089]);
  (43954, [5090]); (43955, [5091]); (43956, [5092]); (43957, [5093]); (43958, [5094]);
  (43959, [5095]); (43960, [5096]); (43961, [5097]); (43962, [5098]); (43963, [5099]);
  (43964, [5100]); (43965, [5101]); (43966, [5102]); (43967, [5103]);
  (64256, [102; 102]); (64257, [102; 105]); (64258, [102; 108]);
  (64259, [102; 102; 105]); (64260, [102; 102; 108]); (64261, [115; 116]);
  (64262, [115; 116]); (64275, [1396; 1398]); (64276, [1396; 1381]);
  (64277, [1396; 1387]); (64278, [1406; 1398]); (64279, [1396; 1389]);
  (65313, [65345]); (65314, [65346]); (65315, [65347]); (65316, [65348]);
  (65317, [65349]); (65318, [65350]); (65319, [65351]); (65320, [65352]);
  (65321, [65353]); (65322, [65354]); (65323, [65355]); (65324, [65356]);
  (65325, [65357]); (65326, [65358]); (65327, [65359]); (65328, [65360]);
  (65329, [65361]); (65330, [65362]); (65331, [65363]); (65332, [65364]);
  (65333, [65365]); (65334, [65366]); (65335, [65367]); (65336, [65368]);
  (65337, [65369]); (65338, [65370]); (66560, [66600]); (66561, [66601]);
  (66562, [66602]); (66563, [66603]); (66564, [66604]); (66565, [66605]);
  (66566, [66606]); (66567, [66607]); (66568, [66608]); (66569, [66609]);
  (66570, [66610]); (66571, [66611]); (66572, [66612]); (66573, [66613]);
  (66574, [66614]); (66575, [66615]); (66576, [66616]); (66577, [66617]);
  (66578, [66618]); (66579, [66619]); (66580, [66620]); (66581, [66621]);
  (66582, [66622]); (66583, [66623]); (66584, [66624]); (66585, [66625]);
  (66586, [66626]); (66587, [66627]); (66588, [66628]); (66589, [66629]);
  (66590, [66630]); (66591, [66631]); (66592, [66632]); (66593, [66633]);
  (66594, [66634]); (66595, [66635]); (66596, [66636]); (66597, [66637]);
  (66598, [66638]); (66599, [66639]); (66736, [66776]); (66737, [66777]);
  (66738, [66778]); (66739, [66779]); (66740, [66780]); (66741, [66781]);
  (66742, [66782]); (66743, [66783]); (66744, [66784]); (66745, [66785]);
  (66746, [66786]); (66747, [66787]); (66748, [66788]); (66749, [66789]);
  (66750, [66790]); (66751, [66791]); (66752, [66792]); (66753, [66793]);
  (66754, [66794]); (66755, [66795]); (66756, [66796]); (66757, [66797]);
  (66758, [66798]); (66759, [66799]); (66760, [66800]); (66761, [66801]);
  (66762, [66802]); (66763, [66803]); (66764, [66804]); (66765, [66805]);
  (66766, [66806]); (66767, [66807]); (66768, [66808]); (66769, [66809]);
  (66770, [66810]); (66771, [66811]); (66928, [66967]); (66929, [66968]);
  (66930, [66969]); (66931, [66970]); (66932, [66971]); (66933, [66972]);
  (66934, [66973]); (66935, [66974]); (66936, [66975]); (66937, [66976]);
  (66938, [66977]); (66940, [66979]); (66941, [66980]); (66942, [66981]);
  (66943, [66982]); (66944, [66983]); (66945, [66984]); (66946, [66985]);
  (66947, [66986]); (66948, [66987]); (66949, [66988]); (66950, [66989]);
  (66951, [66990]); (66952, [66991]); (66953, [66992]); (66954, [66993]);
  (66956, [66995]); (66957, [66996]); (66958, [66997]); (66959, [66998]);
  (66960, [66999]); (66961, [67000]); (66962, [67001]); (66964, [67003]);
  (66965, [67004]); (68736, [68800]); (68737, [68801]); (68738, [68802]);
  (68739, [68803]); (68740, [68804]); (68741, [68805]); (68742, [68806]);
  (68743, [68807]); (68744, [68808]); (68745, [68809]); (68746, [68810]);
  (68747, [68811]); (68748, [68812]); (68749, [68813]); (68750, [68814]);
  (68751, [68815]); (68752, [68816]); (68753, [68817]); (68754, [68818]);
  (68755, [68819]); (68756, [68820]); (68757, [68821]); (68758, [68822]);
  (68759, [68823]); (68760, [68824]); (68761, [68825]); (68762, [68826]);
  (68763, [68827]); (68764, [68828]); (68765, [68829]); (68766, [68830]);
  (68767, [68831]); (68768, [68832]); (68769, [68833]); (68770, [68834]);
  (68771, [68835]); (68772, [68836]); (68773, [68837]); (68774, [68838]);
  (68775, [68839]); (68776, [68840]); (68777, [68841]); (68778, [68842]);
  (68779, [68843]); (68780, [68844]); (68781, [68845]); (68782, [68846]);
  (68783, [68847]); (68784, [68848]); (68785, [68849]); (68786, [68850]);
  (71840, [71872]); (71841, [71873]); (71842, [71874]); (71843, [71875]);
  (71844, [71876]); (71845, [71877]); (71846, [71878]); (71847, [71879]);
  (71848, [71880]); (71849, [71881]); (71850, [71882]); (71851, [71883]);
  (71852, [71884]); (71853, [71885]); (71854, [71886]); (71855, [71887]);
  (71856, [71888]); (71857, [71889]); (71858, [71890]); (71859, [71891]);
  (71860, [71892]); (71861, [71893]); (71862, [71894]); (71863, [71895]);
  (71864, [71896]); (71865, [71897]); (71866, [71898]); (71867, [71899]);
  (71868, [71900]); (71869, [71901]); (71870, [71902]); (71871, [71903]);
  (93760, [93792]); (93761, [93793]); (93762, [93794]); (93763, [93795]);
  (93764, [93796]); (93765, [93797]); (93766, [93798]); (93767, [93799]);
  (93768, [93800]); (93769, [93801]); (93770, [93802]); (93771, [93803]);
  (93772, [93804]); (93773, [93805]); (93774, [93806]); (93775, [93807]);
  (93776, [93808]); (93777, [93809]); (93778, [93810]); (93779, [93811]);
  (93780, [93812]); (93781, [93813]); (93782, [93814]); (93783, [93815]);
  (93784, [93816]); (93785, [93817]); (93786, [93818]); (93787, [93819]);
  (93788, [93820]); (93789, [93821]); (93790, [93822]); (93791, [93823]);
  (125184, [125218]); (125185, [125219]); (125186, [125220]); (125187, [125221]);
  (125188, [125222]); (125189, [125223]); (125190, [125224]); (125191, [125225]);
  (125192, [125226]); (125193, [125227]); (125194, [125228]); (125195, [125229]);
  (125196, [125230]); (125197, [125231]); (125198, [125232]); (125199, [125233]);
  (125200, [125234]); (125201, [125235]); (125202, [125236]); (125203, [125237]);
  (125204, [125238]); (125205, [125239]); (125206, [125240]); (125207, [125241]);
  (125208, [125242]); (125209, [125243]); (125210, [125244]); (125211, [125245]);
  (125212, [125246]); (125213, [125247]); (125214, [125248]); (125215, [125249]);
  (125216, [125250]); (125217, [125251])].

(** [str.casefold] on one code point (CPython folds each code point on
    its own, without context). *)
Definition casefold_char (c : Z) : list Z :=
  match find (fun p => p.1 =? c) CASEFOLD_TABLE with
  | Some p => p.2
  | None => [c]
  end.

Definition casefold (s : pystr) : pystr := mjoin (map casefold_char s).

(** [TABLE = str.maketrans("éèêëàâôöùûüîïçñ-_", "eeeeaaoouuuiicn  ")] *)
Definition CONVERSION : list (Z * Z) :=
  [(233, 101); (232, 101); (234, 101); (235, 101);
   (224, 97); (226, 97);
   (244, 111); (246, 111);
   (249, 117); (251, 117); (252, 117);
   (238, 105); (239, 105);
   (231, 99);
   (241, 110);
   (45, 32); (95, 32)].

Definition translate_char (c : Z) : Z :=
  match find (fun p => p.1 =? c) CONVERSION with
  | Some p => p.2
  | None => c
  end.

Definition translate (s : pystr) : pystr := map translate_char s.

(** [norm(name) = set(name.casefold().translate(TABLE).split())] *)
Definition norm (name : pystr) : gset pystr :=
  list_to_set (py_split (translate (casefold name))).

(* ------------------------------------------------------------------ *)
(** ** Matchers *)

(** [match]: A = B *)
Definition match_ (name1 name2 : pystr) : bool :=
  bool_decide (norm name1 = norm name2).

(** [contain]: A ⊂ B or B ⊂ A *)
Definition contain (name1 name2 : pystr) : bool :=
  bool_decide (norm name1 ⊆ norm name2) || bool_decide (norm name2 ⊆ norm name1).

(** [partial_match]: some word of length at least 3 in A ∩ B *)
Definition partial_match (name1 name2 : pystr) : bool :=
  let intersection := norm name1 ∩ norm name2 in
  bool_decide (1 <= size (filter (fun word : pystr => (3 <= length word)%nat) intersection))%nat.


(* ------------------------------------------------------------------ *)
(** ** Reconciler: [translate_names] *)

(** The tuple [(match, contain, partial_match)] iterated by the passes. *)
Inductive matcher := Match | Contain | PartialMatch.

Definition matching_function (f : matcher) : pystr -> pystr -> bool :=
  match f with
  | Match => match_
  | Contain => contain
  | PartialMatch => partial_match
  end.

(** [for x in l: acc = body(acc, x)], stopping at the first exception. *)
Fixpoint fold_res {A B} (f : A -> B -> res A) (acc : A) (l : list B) : res A :=
  match l with
  | [] => Ok acc
  | x :: l' => acc' ← f acc x; fold_res f acc' l'
  end.

(** [Counter(l)[name]] *)
Definition count_name (name : pystr) (l : list pystr) : nat :=
  length (filter (fun y => y = name) l).

(** [next(name for name, count in Counter(l).items() if count > 1)]:
    [Counter] lists its keys in order of first occurrence, so this is the
    first element of [l] that occurs more than once. *)
Definition first_dup (l : list pystr) : option pystr :=
  find (fun x => bool_decide (1 < count_name x l)%nat) l.

(** The dicts [found] and [to_be_verified]. *)
Abbreviation names_map := (gmap pystr pystr).

Section Reconciler.

(** Enumeration order of a Python set of strings. *)
Variable iter : gset pystr -> list pystr.

(** Body of the innermost loop, for one pair [(other, intra)]. *)
Definition match_step (f : matcher) (other : pystr)
    (st : names_map * names_map) (intra : pystr) : res (names_map * names_map) :=
  let '(found, to_be_verified) := st in
  if matching_function f other intra then
    match found !! intra with
    | Some _ => Err AssertionError
    | None =>
        Ok (<[intra := other]> found,
            match f with
            | PartialMatch => <[intra := other]> to_be_verified
            | _ => to_be_verified
            end)
    end
  else Ok st.

(** One pass: [for other in others: for intra in intracursus: ...]. *)
Definition run_pass (f : matcher) (others intracursus : gset pystr)
    (st : names_map * names_map) : res (names_map * names_map) :=
  fold_res (fun st other => fold_res (match_step f other) st (iter intracursus))
    st (iter others).

(** The passes, each followed by
    [others -= set(found.values()); intracursus -= set(found)]. *)
Fixpoint run_passes (fs : list matcher) (others intracursus : gset pystr)
    (found to_be_verified : names_map)
    : res (names_map * names_map * gset pystr * gset pystr) :=
  match fs with
  | [] => Ok (found, to_be_verified, others, intracursus)
  | f :: fs' =>
      st ← run_pass f others intracursus (found, to_be_verified);
      run_passes fs' (others ∖ (map_img st.1 : gset pystr))
        (intracursus ∖ dom st.1) st.1 st.2
  end.

Definition matching_functions : list matcher := [Match; Contain; PartialMatch].

(** Everything after the duplicate check. *)
Definition translate_after_check (others intracursus : gset pystr)
    : res (names_map * names_map) :=
  r ← run_passes matching_functions others intracursus ∅ ∅;
  let '(found, to_be_verified, others', _) := r in
  match iter others' with
  | [] => Ok (found, to_be_verified)
  | name :: _ => Err (UnknownNameError name)
  end.

Definition translate_names (other_names intracursus_names : list pystr)
    : res (names_map * names_map) :=
  let others : gset pystr := list_to_set other_names in
  let intracursus : gset pystr := list_to_set intracursus_names in
  if bool_decide (size others <> length other_names) then
    match first_dup other_names with
    | Some name => Err (DuplicateNamesError name (count_name name other_names))
    | None => Err StopIteration
    end
  else translate_after_check others intracursus.

(* ------------------------------------------------------------------ *)
(** ** Dataset extractors *)

Record IntracursusData := mkIntracursusData {
  ids : list cell;
  names : list pystr;
  scores : list cell
}.

Record OtherData := mkOtherData {
  other_ids : list Z;
  other_names : list pystr;
  other_scores : list cell
}.

Definition find_first_data_row (other_sheet : SheetData) : res nat :=
  match list_find (fun row => existsb (fun val => strip_nonempty (py_str val)) row = true)
          other_sheet with
  | None => Err NothingToMergeError
  | Some (i, row) => Ok (if forallb is_str row then S i else i)
  end.

(** [zip( *rows)]: the columns of [rows], cut to the shortest row. *)
Definition zip_star {A} (rows : list (list A)) : list (list A) :=
  match rows with
  | [] => []
  | r :: _ =>
      let n := foldr (fun r' m => Nat.min (length r') m) (length r) rows in
      map (fun j => omap (fun r' => r' !! j) rows) (seq 0 n)
  end.

Definition is_id_value (val : cell) : bool :=
  match val with CInt z => 1000000 <? z | _ => false end.

Definition id_value (val : cell) : Z :=
  match val with CInt z => z | _ => 0 end.

Definition is_number (val : cell) : bool :=
  match val with CInt _ | CFloat _ => true | CStr _ => false end.

(** Body of [for column in columns] in [get_other_data]; the state is
    [(ids, scores, names_columns)]. *)
Definition classify_column (st : list Z * list cell * list (list pystr))
    (column : list cell) : list Z * list cell * list (list pystr) :=
  let '(ids_, scores_, names_columns) := st in
  if forallb is_id_value column then (map id_value column, scores_, names_columns)
  else if forallb is_str column then (ids_, scores_, names_columns ++ [map py_str column])
  else if existsb is_number column then (ids_, column, names_columns)
  else st.

Definition get_other_data (other_sheet : SheetData) : res OtherData :=
  i ← find_first_data_row other_sheet;
  let columns := zip_star (drop i other_sheet) in
  let '(ids_, scores_, names_columns) := foldl classify_column ([], [], []) columns in
  let names_ := map (py_join (u " ")) (zip_star names_columns) in
  Ok (mkOtherData ids_ names_ scores_).

(** One row of [sheet[6:]] unpacked as [(id_, first_name, last_name, score, *_)]. *)
Definition intracursus_row (row : list cell) : res (cell * pystr * cell) :=
  match row with
  | id_ :: first_name :: last_name :: score :: _ =>
      Ok (id_, py_str first_name ++ u " " ++ py_str last_name, score)
  | _ => Err ValueError
  end.

(** [IntracursusData( *zip( *rows))]: with no row, [IntracursusData()]
    misses its arguments. *)
Definition get_intracursus_data (sheet : SheetData) : res IntracursusData :=
  rows ← mapM intracursus_row (drop 6 sheet);
  match rows with
  | [] => Err TypeError
  | _ => Ok (mkIntracursusData (map (fun r => r.1.1) rows) (map (fun r => r.1.2) rows)
                               (map (fun r => r.2) rows))
  end.

(* ------------------------------------------------------------------ *)
(** ** Merger *)

(** [dict(pairs)]: a later pair overwrites an earlier one. *)
Definition dict_of `{Countable K} {V} (pairs : list (K * V)) : gmap K V :=
  foldl (fun m p => <[p.1 := p.2]> m) ∅ pairs.

Definition lookup_or_keyerror `{Countable K} {V} (m : gmap K V) (k : K) : res V :=
  match m !! k with Some v => Ok v | None => Err KeyError end.

(** Keys of a [dict[int, ...]]: an [int] and a [float] that are equal
    have the same hash and compare equal, so [scores[2000001.0]] finds the
    key [2000001]; a [str] never equals an [int]. A float is carried as its
    [repr], which denotes the decimal [float(repr)] rounds to the float. *)
Definition digit_value (c : Z) : option Z :=
  if (48 <=? c) && (c <=? 57) then Some (c - 48) else None.

Fixpoint parse_digits_aux (acc : Z) (s : pystr) : option Z :=
  match s with
  | [] => Some acc
  | c :: t => d ← digit_value c; parse_digits_aux (acc * 10 + d) t
  end.

(** A non-empty run of decimal digits. *)
Definition parse_digits (s : pystr) : option Z :=
  match s with [] => None | _ => parse_digits_aux 0 s end.

(** [s.partition(sep)], keeping whether [sep] was found. *)
Fixpoint split_once (sep : Z) (s : pystr) : pystr * option pystr :=
  match s with
  | [] => ([], None)
  | c :: t => if c =? sep then ([], Some t)
              else let '(a, b) := split_once sep t in (c :: a, b)
  end.

(** Nearest integer to [p / q] ([q > 0]), ties to even. *)
Definition round_half_even (p q : Z) : Z :=
  let n := p / q in
  let r := p mod q in
  if 2 * r <? q then n else if q <? 2 * r then n + 1
  else if Z.even n then n else n + 1.

(** [p / q * 2 ^ (- s)] as an integer, rounded down. *)
Definition scaled_floor (p q s : Z) : Z :=
  if 0 <=? s then p / (q * 2 ^ s) else p * 2 ^ (- s) / q.

(** The IEEE double nearest to [p / q] ([p >= 0], [q > 0]), round half to
    even, when it is an integer; [None] when it is not or overflows. *)
Definition double_int (p q : Z) : option Z :=
  if p =? 0 then Some 0 else
  let t := Z.log2 p - Z.log2 q - 53 in
  let s := if 2 ^ 53 <=? scaled_floor p q t then t + 1 else t in
  let s := Z.max s (-1074) in
  let m := if 0 <=? s then round_half_even p (q * 2 ^ s)
           else round_half_even (p * 2 ^ (- s)) q in
  if 0 <=? s then
    (if 2 ^ 1024 <=? m * 2 ^ s then None else Some (m * 2 ^ s))
  else if m mod 2 ^ (- s) =? 0 then Some (m / 2 ^ (- s)) else None.

(** The integer a float equals, from its [repr] ([[-]digits[.digits][e(+|-)digits]];
    ["inf"], ["nan"] and non-integral values give [None]). *)
Definition float_repr_int (r : pystr) : option Z :=
  let '(neg, body) := match r with 45 :: t => (true, t) | _ => (false, r) end in
  let '(mant, exp) := split_once 101 body in
  e ← match exp with
      | None => Some 0
      | Some (43 :: d) => parse_digits d
      | Some (45 :: d) => Z.opp <$> parse_digits d
      | Some d => parse_digits d
      end;
  let '(ip, fp) := split_once 46 mant in
  i ← parse_digits ip;
  '(f, k) ← match fp with
            | None => Some (0, 0)
            | Some d => f ← parse_digits d; Some (f, Z.of_nat (length d))
            end;
  let n := i * 10 ^ k + f in
  let ex := e - k in
  v ← (if 0 <=? ex then double_int (n * 10 ^ ex) 1 else double_int n (10 ^ (- ex)));
  Some (if neg then - v else v).

(** The [int] key a cell finds in a [dict[int, ...]], if any. *)
Definition int_key (c : cell) : option Z :=
  match c with
  | CInt z => Some z
  | CFloat r => float_repr_int r
  | CStr _ => None
  end.

Definition ABI : cell := CStr (u "ABI").

(** Returns the updated data (Python mutates [intracursus_data.scores])
    and [to_be_verified]. *)
Definition update_intracursus_data (intracursus_data : IntracursusData)
    (other_data : OtherData) : res (IntracursusData * names_map) :=
  match other_ids other_data with
  | _ :: _ =>
      let scores_ : gmap Z cell := dict_of (zip (other_ids other_data) (other_scores other_data)) in
      new ← mapM (fun id_ => match int_key id_ with
                             | Some z => lookup_or_keyerror scores_ z
                             | None => Err KeyError
                             end) (ids intracursus_data);
      Ok (mkIntracursusData (ids intracursus_data) (names intracursus_data) new, ∅)
  | [] =>
      '(names_translation, to_be_verified) ←
        translate_names (other_names other_data) (names intracursus_data);
      let scores_ : gmap (option pystr) cell :=
        <[None := ABI]> (dict_of (zip (map Some (other_names other_data)) (other_scores other_data))) in
      new ← mapM (fun name => lookup_or_keyerror scores_ (names_translation !! name))
                 (names intracursus_data);
      Ok (mkIntracursusData (ids intracursus_data) (names intracursus_data) new, to_be_verified)
  end.

Definition list_get {A} (l : list A) (i : nat) : res A :=
  match l !! i with Some x => Ok x | None => Err IndexError end.

(** [l[i] = x] on a Python list. *)
Definition list_set {A} (l : list A) (i : nat) (x : A) : res (list A) :=
  if decide (i < length l)%nat then Ok (<[i := x]> l) else Err IndexError.

(** One iteration of the loop of [fill_scores], on row [i]. *)
Definition fill_row (intracursus_sheet : SheetData) (to_be_verified : names_map)
    (i : nat) (score : cell) : res SheetData :=
  let score := match score with
               | CStr s => if startswith s (u "#") then ABI else score
               | _ => score
               end in
  row ← list_get intracursus_sheet i;
  c0 ← list_get row 0;
  row ← (if negb (cell_eqb c0 (CStr []) && cell_eqb score ABI)
         then list_set row 3 score else Ok row);
  '(first_name, last_name) ←
    (match drop 1 (take 3 row) with
     | [a; b] => Ok (a, b)
     | _ => Err ValueError
     end);
  let name := py_str first_name ++ u " " ++ py_str last_name in
  let row := match to_be_verified !! name with
             | Some other => row ++ [CStr (other ++ u " ?")]
             | None => row
             end in
  list_set intracursus_sheet i row.

(** [for i, score in enumerate(scores, start=i): ...] *)
Fixpoint fill_scores_loop (intracursus_sheet : SheetData) (to_be_verified : names_map)
    (i : nat) (scores_ : list cell) : res SheetData :=
  match scores_ with
  | [] => Ok intracursus_sheet
  | score :: rest =>
      sheet' ← fill_row intracursus_sheet to_be_verified i score;
      fill_scores_loop sheet' to_be_verified (S i) rest
  end.

(** [fill_scores]: returns the mutated first sheet. *)
Definition fill_scores (intracursus_sheet other_sheet : SheetData) : res SheetData :=
  intracursus_data ← get_intracursus_data intracursus_sheet;
  other_data ← get_other_data other_sheet;
  '(intracursus_data, to_be_verified) ← update_intracursus_data intracursus_data other_data;
  fill_scores_loop intracursus_sheet to_be_verified 6 (scores intracursus_data).

End Reconciler.

(* ------------------------------------------------------------------ *)
(** ** Sample inputs *)

(** Six leading rows of an Intracursus sheet (the loop starts at row 6). *)
Definition header : SheetData := repeat [CStr (u "x")] 6.

(** A canonical sheet with a recorded score (12.0) for "Jean Dupont", an
    empty score for "Marie Curie", and a row without identifier. *)
Definition sheet_recorded : SheetData :=
  header ++ [[CInt 1; CStr (u "Jean"); CStr (u "Dupont"); CFloat (u "12.0")];
             [CInt 2; CStr (u "Marie"); CStr (u "Curie"); CStr []];
             [CStr []; CStr (u "Paul"); CStr (u "Martin"); CFloat (u "9.0")]].

(** A secondary sheet with a header row and a score for "Marie Curie" only. *)
Definition other_recorded : SheetData :=
  [[CStr (u "Nom"); CStr (u "Note")]; [CStr (u "Marie Curie"); CFloat (u "15.5")]].

(** A canonical sheet with two roster identifiers. *)
Definition sheet_ids : SheetData :=
  header ++ [[CInt 2000001; CStr (u "Jean"); CStr (u "Dupont"); CStr []];
             [CInt 2000002; CStr (u "Marie"); CStr (u "Curie"); CStr []]].

(** A secondary sheet keyed by identifier, without the second student. *)
Definition other_by_id : SheetData := [[CInt 2000001; CFloat (u "15.5")]].

Ltac zcase :=
  match goal with
  | |- context [Z.leb ?a ?b] => destruct (Z.leb_spec a b)
  | |- context [Z.eqb ?a ?b] => destruct (Z.eqb_spec a b)
  end; cbn [andb orb negb].

(** What one pass may do to [found]: keep every entry, and add entries
    from a canonical name of [I] to a secondary name of [O]. *)
Definition grows_within (O I : gset pystr) (found found' : names_map) : Prop :=
  found ⊆ found' /\
  forall k v, found' !! k = Some v -> found !! k = Some v \/ (k ∈ I /\ v ∈ O).

(** What one pass with matcher [f] over the pools [O] and [I] may do to
    the pair [(found, to_be_verified)]: every new entry of [found] pairs
    names accepted by [f]; new entries of [to_be_verified] come only from
    the partial pass and pair a name of [I] with a name of [O]; and
    [to_be_verified] stays a sub-map of [found]. *)
Definition pass_rel (f : matcher) (O I : gset pystr) (st st' : names_map * names_map) : Prop :=
  (forall k v, st'.1 !! k = Some v ->
     st.1 !! k = Some v \/ matching_function f v k = true) /\
  (forall k v, st'.2 !! k = Some v ->
     st.2 !! k = Some v \/
     (f = PartialMatch /\ k ∈ I /\ v ∈ O /\ matching_function f v k = true)) /\
  (st.2 ⊆ st.1 -> st'.2 ⊆ st'.1).
(* ------------------------------------------------------------------ *)
(** ** Entry point *)

(** The texts [seems_an_intracursus_file] looks for (code points 224,
    233 and 234 are "à", "é" and "ê"). *)
Definition intracursus_title : pystr :=
  u "Liste de tous les " ++ [233] ++ u "tudiants  inscrits " ++ [224] ++ u " l'unit" ++ [233]
  ++ u " d'enseignement".

Definition intracursus_notice : pystr :=
  u "Les notes acquises ne doivent pas " ++ [234] ++ u "tre modifi" ++ [233] ++ u "es."
  ++ u " Elles correspondent " ++ [224] ++ u " la moyenne de l'unit" ++ [233]
  ++ u " obtenue lors d'une session pr" ++ [233] ++ u "c" ++ [233] ++ u "dente.".

Definition intracursus_codes : pystr :=
  u "On inscrira dans la colonne 'note' ABI ou ABS pour absence injustifi" ++ [233] ++ u "e,"
  ++ u " ABJ pour absence justifi" ++ [233] ++ u "e, NEU pour note neutralis" ++ [233] ++ u "e".

Definition intracursus_headers : list cell :=
  [CStr (u "Num" ++ [233] ++ u "ro"); CStr (u "Nom"); CStr (u "Pr" ++ [233] ++ u "nom");
   CStr (u "Note")].

(** [==] on two lists of cells. *)
Fixpoint cells_eqb (l1 l2 : list cell) : bool :=
  match l1, l2 with
  | [], [] => true
  | a :: l1', b :: l2' => cell_eqb a b && cells_eqb l1' l2'
  | _, _ => false
  end.

(** The chain of [and] is evaluated left to right: a failed test stops
    it before the next indexing, which may raise [IndexError]. *)
Definition seems_an_intracursus_file (sheet : SheetData) : res bool :=
  row0 ← list_get sheet 0; c00 ← list_get row0 0;
  if negb (is_str c00 && startswith (py_str c00) intracursus_title) then Ok false else
  row1 ← list_get sheet 1; c10 ← list_get row1 0;
  if negb (cell_eqb c10 (CStr intracursus_notice)) then Ok false else
  row2 ← list_get sheet 2; c20 ← list_get row2 0;
  if negb (cell_eqb c20 (CStr intracursus_codes)) then Ok false else
  row5 ← list_get sheet 5;
  Ok (cells_eqb (take 4 row5) intracursus_headers).

(** Exceptions of [import_scores]: those of the code it calls, and its
    own two. *)
Inductive import_error :=
| Raised (e : py_error)
| TooManySheetsError
| NotAnIntracursusFileError.

(** [import_scores] after reading the workbook ([all_data], its sheets in
    order): returns the first sheet as it is saved, after [fill_scores]. *)
Definition import_sheets (iter : gset pystr -> list pystr) (all_data : list SheetData)
    : import_error + SheetData :=
  match all_data with
  | [] | [_] => inl (Raised NothingToMergeError)
  | [first; second] =>
      match seems_an_intracursus_file first with
      | inl e => inl (Raised e)
      | inr false => inl NotAnIntracursusFileError
      | inr true =>
          match fill_scores iter first second with
          | inl e => inl (Raised e)
          | inr sheet => inr sheet
          end
      end
  | _ => inl TooManySheetsError
  end.

(** A first sheet with the Intracursus layout and one student. *)
Definition intracursus_sample : SheetData :=
  [[CStr (intracursus_title ++ u " TBFTR106")]; [CStr intracursus_notice];
   [CStr intracursus_codes]; [CStr []]; [CStr []]; intracursus_headers;
   [CInt 1; CStr (u "Jean"); CStr (u "Dupont"); CStr []]].

(* ------------------------------------------------------------------ *)
(** ** Evaluations *)

Example tn1 : translate_names elements [u "Dupont Jean"; u "Durand"]
   [u "Jean Dupont"; u "Paul Durand"; u "Luc Martin"]
  = Ok (<[u "Jean Dupont" := u "Dupont Jean"]> (<[u "Paul Durand" := u "Durand"]> ∅), ∅).
Proof. vm_compute. reflexivity. Qed.
Example tn2 : translate_names elements [u "A B"; u "C D"; u "A B"] []
  = Err (DuplicateNamesError (u "A B") 2).
Proof. vm_compute. reflexivity. Qed.
Example tn3 : translate_names elements [u "Jean Dupont"; u "Dupont Jean"] [u "Jean Dupont"]
  = Err AssertionError.
Proof. vm_compute. reflexivity. Qed.

Example fs1 : fill_scores elements
  (header ++ [[CInt 1; CStr (u "Jean"); CStr (u "Dupont"); CFloat (u "12.0")];
              [CInt 2; CStr (u "Sabrina"); CStr (u "Alkissi"); CStr []]])
  [[CStr (u "Nom"); CStr (u "Note")]; [CStr (u "alkissi durand"); CFloat (u "15.5")]]
  = Ok (header ++ [[CInt 1; CStr (u "Jean"); CStr (u "Dupont"); ABI];
              [CInt 2; CStr (u "Sabrina"); CStr (u "Alkissi"); CFloat (u "15.5"); CStr (u "alkissi durand ?")]]).
Proof. vm_compute. reflexivity. Qed.

(* ------------------------------------------------------------------ *)
(** ** Properties of [norm] *)


(** The images in [CASEFOLD_TABLE] are themselves left unchanged by
    [str.casefold]. *)
Lemma casefold_table_closed :
  forallb (fun p => forallb (fun d => bool_decide (casefold_char d = [d])) p.2)
    CASEFOLD_TABLE = true.
Proof. vm_compute. reflexivity. Qed.

Lemma casefold_char_out (c d : Z) : d ∈ casefold_char c -> casefold_char d = [d].
Proof.
  unfold casefold_char at 1. destruct (find _ CASEFOLD_TABLE) as [p|] eqn:E.
  - intros Hd. apply find_some in E as [Hp _].
    pose proof casefold_table_closed as Hc. rewrite forallb_forall in Hc.
    specialize (Hc p Hp). rewrite forallb_forall in Hc.
    apply list_elem_of_In in Hd. specialize (Hc d Hd). by apply bool_decide_eq_true in Hc.
  - intros Hd. apply list_elem_of_singleton in Hd as ->. unfold casefold_char. by rewrite E.
Qed.

Lemma translate_char_cases (c : Z) :
  translate_char c = c \/ translate_char c ∈ [101; 97; 111; 117; 105; 99; 110; 32].
Proof.
  unfold translate_char; cbn [find CONVERSION fst snd].
  repeat (zcase; [right; cbn [snd]; set_solver|]). left; reflexivity.
Qed.

Lemma translate_char_out (d : Z) :
  casefold_char d = [d] ->
  casefold_char (translate_char d) = [translate_char d] /\
  translate_char (translate_char d) = translate_char d.
Proof.
  intros Hd. destruct (translate_char_cases d) as [E | E].
  - rewrite E. auto.
  - set_unfold in E. destruct_or?; rewrite E; split; (vm_compute; reflexivity).
Qed.

Lemma reverse_nonempty {A} (x : A) (l : list A) : reverse (x :: l) <> [].
Proof.
  intros Hr. apply (f_equal length) in Hr. rewrite length_reverse in Hr. discriminate.
Qed.

(** Every word produced by [split] is non-empty and free of whitespace,
    and its characters come from the input. *)
Lemma split_aux_words (P : Z -> Prop) (cur s : pystr) :
  (forall c, c ∈ s -> P c) -> (forall c, c ∈ cur -> P c /\ is_space c = false) ->
  forall w, w ∈ split_aux cur s -> w <> [] /\ forall c, c ∈ w -> P c /\ is_space c = false.
Proof.
  revert cur. induction s as [|c s IH]; intros cur Hs Hcur w Hw; simpl in Hw.
  - destruct cur as [|c0 cur0]; [set_solver|].
    apply list_elem_of_singleton in Hw as ->.
    split; [apply reverse_nonempty|]. intros c Hc. apply Hcur. by rewrite elem_of_reverse in *.
  - destruct (is_space c) eqn:Ec.
    + destruct cur as [|c0 cur0].
      * apply (IH []); [set_solver | set_solver | done].
      * apply elem_of_cons in Hw as [-> | Hw].
        -- split; [apply reverse_nonempty|]. intros c' Hc'. apply Hcur.
           by rewrite elem_of_reverse in *.
        -- apply (IH []); [set_solver | set_solver | done].
    + apply (IH (c :: cur)); [set_solver | | done].
      intros c' Hc'. apply elem_of_cons in Hc' as [-> | Hc']; [|auto].
      split; [apply Hs; set_solver | done].
Qed.

Lemma split_aux_word (w cur rest : pystr) :
  (forall c, c ∈ w -> is_space c = false) ->
  split_aux cur (w ++ rest) = split_aux (reverse w ++ cur) rest.
Proof.
  revert cur. induction w as [|c w IH]; intros cur Hw; [reflexivity|].
  simpl. rewrite (Hw c) by set_solver. rewrite IH by set_solver.
  rewrite reverse_cons, <- app_assoc. reflexivity.
Qed.

Lemma split_aux_space (c0 : Z) (cur rest : pystr) :
  split_aux (c0 :: cur) ([32] ++ rest) = reverse (c0 :: cur) :: split_aux [] rest.
Proof. reflexivity. Qed.

(** [split] undoes [" ".join] on words without whitespace. *)
Lemma split_join (l : list pystr) :
  (forall w, w ∈ l -> w <> [] /\ forall c, c ∈ w -> is_space c = false) ->
  py_split (py_join (u " ") l) = l.
Proof.
  unfold py_split. induction l as [|w l IH]; intros Hl; [reflexivity|].
  destruct (Hl w) as [Hne Hsp]; [set_solver|].
  destruct l as [|w2 l].
  - simpl. replace (split_aux [] w) with (split_aux (reverse w ++ []) [])
      by (rewrite <- split_aux_word by exact Hsp; rewrite app_nil_r; reflexivity).
    rewrite app_nil_r. destruct (reverse w) eqn:Er.
    + exfalso. apply Hne. rewrite <- (reverse_involutive w), Er. reflexivity.
    + simpl. rewrite <- Er, reverse_involutive. reflexivity.
  - change (py_join (u " ") (w :: w2 :: l)) with (w ++ [32] ++ py_join (u " ") (w2 :: l)).
    rewrite split_aux_word by exact Hsp. rewrite app_nil_r.
    destruct (reverse w) eqn:Er.
    + exfalso. apply Hne. rewrite <- (reverse_involutive w), Er. reflexivity.
    + rewrite split_aux_space, <- Er, reverse_involutive, IH; [reflexivity|].
      intros w' Hw'. apply Hl. set_solver.
Qed.

Lemma casefold_cons (c : Z) (s : pystr) : casefold (c :: s) = casefold_char c ++ casefold s.
Proof. reflexivity. Qed.

Lemma casefold_app (s t : pystr) : casefold (s ++ t) = casefold s ++ casefold t.
Proof.
  induction s as [|c s IH]; [reflexivity|].
  rewrite <- app_comm_cons, !casefold_cons, IH, app_assoc. reflexivity.
Qed.

Lemma elem_of_casefold (d : Z) (s : pystr) :
  d ∈ casefold s -> exists c, c ∈ s /\ d ∈ casefold_char c.
Proof.
  induction s as [|c s IH]; [simpl; set_solver|].
  rewrite casefold_cons, elem_of_app. intros [Hd | Hd]; [set_solver|].
  destruct (IH Hd) as (c' & ? & ?). exists c'. set_solver.
Qed.

Lemma casefold_fixed (s : pystr) :
  (forall c, c ∈ s -> casefold_char c = [c]) -> casefold s = s.
Proof.
  induction s as [|c s IH]; intros Hs; [reflexivity|].
  rewrite casefold_cons, (Hs c), IH by set_solver. reflexivity.
Qed.

Lemma translate_fixed (s : pystr) :
  (forall c, c ∈ s -> translate_char c = c) -> translate s = s.
Proof.
  induction s as [|c s IH]; intros Hs; [reflexivity|].
  simpl. rewrite (Hs c) by set_solver. f_equal. apply IH. set_solver.
Qed.

Lemma elem_of_py_join (c : Z) (sep : pystr) (l : list pystr) :
  c ∈ py_join sep l -> c ∈ sep \/ exists w, w ∈ l /\ c ∈ w.
Proof.
  induction l as [|w l IH]; simpl; [set_solver|].
  destruct l as [|w2 l]; [set_solver|].
  rewrite !elem_of_app. intros [Hc | [Hc | Hc]]; [set_solver | auto |].
  destruct (IH Hc) as [? | (w' & ? & ?)]; [auto | right; exists w'; set_solver].
Qed.

(** The words of [norm name] consist of characters that [casefold],
    [translate] and [split] leave alone. *)
Lemma norm_words (name w : pystr) :
  w ∈ norm name ->
  w <> [] /\ forall c, c ∈ w ->
    (casefold_char c = [c] /\ translate_char c = c) /\ is_space c = false.
Proof.
  unfold norm. rewrite elem_of_list_to_set. unfold py_split.
  apply split_aux_words; [|set_solver].
  intros c Hc. unfold translate in Hc. apply list_elem_of_fmap in Hc as (d & -> & Hd).
  apply translate_char_out. destruct (elem_of_casefold _ _ Hd) as (c0 & _ & Hc0).
  by apply (casefold_char_out c0).
Qed.

(** C8. Normalisation is idempotent: joining the words of [norm name]
    with spaces, in any order, and normalising again gives [norm name]
    back; and [norm("Éric Dupont-Martin") = norm("eric dupont martin")]. *)
Theorem norm_idempotent (name : pystr) (tokens : list pystr) :
  list_to_set tokens = norm name ->
  norm (py_join (u " ") tokens) = norm name /\
  norm (201 :: u "ric Dupont-Martin") = norm (u "eric dupont martin").
Proof.
  intros Ht. split; [| vm_compute; reflexivity].
  assert (Hw : forall w, w ∈ tokens -> w <> [] /\ forall c, c ∈ w ->
            (casefold_char c = [c] /\ translate_char c = c) /\ is_space c = false).
  { intros w Hw. apply (norm_words name). rewrite <- Ht. set_solver. }
  assert (Hc : forall c, c ∈ py_join (u " ") tokens ->
            casefold_char c = [c] /\ translate_char c = c).
  { intros c Hc. apply elem_of_py_join in Hc as [Hc | (w & Hw1 & Hc)].
    - apply list_elem_of_singleton in Hc as ->. split; reflexivity.
    - apply (proj2 (Hw w Hw1) c Hc). }
  unfold norm at 1.
  rewrite casefold_fixed by (intros; apply Hc; done).
  rewrite translate_fixed by (intros; apply Hc; done).
  rewrite split_join; [exact Ht|].
  intros w Hw1. destruct (Hw w Hw1) as [Hne Hcs]. split; [exact Hne|].
  intros c Hc1. apply (Hcs c Hc1).
Qed.

Lemma norm_idempotent_witness :
  list_to_set (elements (norm (u "Jean-Luc de la Fontaine"))) = norm (u "Jean-Luc de la Fontaine") /\
  norm (py_join (u " ") (elements (norm (u "Jean-Luc de la Fontaine")))) = norm (u "Jean-Luc de la Fontaine") /\
  norm (201 :: u "ric Dupont-Martin") = norm (u "eric dupont martin").
Proof.
  assert (H : list_to_set (elements (norm (u "Jean-Luc de la Fontaine"))) = norm (u "Jean-Luc de la Fontaine"))
    by (vm_compute; reflexivity).
  split; [exact H|]. apply (norm_idempotent _ _ H).
Defined.

Lemma size_filter_pos (P : pystr -> Prop) `{!forall x, Decision (P x)} (X : gset pystr) :
  (1 <= size (filter P X))%nat <-> exists w, w ∈ X /\ P w.
Proof.
  split.
  - intros Hs. destruct (size_pos_elem_of (filter P X)) as [w Hw]; [lia|].
    apply elem_of_filter in Hw as [? ?]. eauto.
  - intros (w & Hw & Hp). destruct (decide (size (filter P X) = 0%nat)) as [E | E]; [|lia].
    apply size_empty_inv in E. exfalso. apply (not_elem_of_empty (C:=gset pystr) w), E.
    apply elem_of_filter. auto.
Qed.

(** C5 (as amended). [match] implies [contain] for every pair; [match]
    implies [partial_match] exactly when the common word set has a word of
    at least 3 characters; [contain] and [partial_match] hold on pairs
    that [match] rejects. *)
Theorem matcher_escalation (a b : pystr) :
  match_ a b = true ->
  (contain a b = true /\
   (partial_match a b = true <-> exists w, w ∈ norm a /\ (3 <= length w)%nat)) /\
  (contain (u "Jean") (u "Jean Dupont") = true /\ match_ (u "Jean") (u "Jean Dupont") = false) /\
  (partial_match (u "Jean Martin") (u "Jean Dupont") = true /\
   match_ (u "Jean Martin") (u "Jean Dupont") = false).
Proof.
  unfold match_. rewrite bool_decide_eq_true. intros E.
  split; [| split; vm_compute; split; reflexivity].
  split.
  - unfold contain. rewrite E, bool_decide_eq_true_2; [reflexivity | set_solver].
  - unfold partial_match. rewrite E, bool_decide_eq_true, size_filter_pos.
    split; intros (w & Hw & Hl); exists w; set_solver.
Qed.

Lemma matcher_escalation_witness :
  match_ (u "Jean Dupont") (u "dupont jean") = true /\
  (contain (u "Jean Dupont") (u "dupont jean") = true /\
   (partial_match (u "Jean Dupont") (u "dupont jean") = true <->
    exists w, w ∈ norm (u "Jean Dupont") /\ (3 <= length w)%nat)) /\
  (contain (u "Jean") (u "Jean Dupont") = true /\ match_ (u "Jean") (u "Jean Dupont") = false) /\
  (partial_match (u "Jean Martin") (u "Jean Dupont") = true /\
   match_ (u "Jean Martin") (u "Jean Dupont") = false).
Proof.
  assert (H : match_ (u "Jean Dupont") (u "dupont jean") = true) by (vm_compute; reflexivity).
  split; [exact H|]. apply (matcher_escalation _ _ H).
Defined.

(** C5 fails as stated: "Li Wu" matches itself exactly, but not partially
    (both of its words are shorter than 3 characters). *)
Lemma matcher_escalation_counterexample :
  ~ (forall a b, match_ a b = true -> partial_match a b = true).
Proof.
  intros H. specialize (H (u "Li Wu") (u "Li Wu")).
  assert (E : match_ (u "Li Wu") (u "Li Wu") = true) by (vm_compute; reflexivity).
  specialize (H E). vm_compute in H. discriminate.
Qed.

(* ------------------------------------------------------------------ *)
(** ** Properties of [translate_names] *)

Lemma size_list_to_set_le (l : list pystr) : (size (list_to_set l : gset pystr) <= length l)%nat.
Proof.
  induction l as [|x l IH]; [cbn [list_to_set]; rewrite size_empty; lia|].
  rewrite list_to_set_cons, size_union_alt, size_singleton. simpl.
  assert (Hd : (list_to_set l ∖ {[x]} : gset pystr) ⊆ list_to_set l) by set_solver.
  apply subseteq_size in Hd. lia.
Qed.

(** [len(set(l)) == len(l)] only for a list without repetition. *)
Lemma size_list_to_set_NoDup (l : list pystr) :
  size (list_to_set l : gset pystr) = length l -> NoDup l.
Proof.
  induction l as [|x l IH]; intros Hs; [constructor|].
  rewrite list_to_set_cons in Hs. simpl in Hs.
  destruct (decide (x ∈ l)) as [Hx | Hx].
  - exfalso. pose proof (size_list_to_set_le l).
    assert (Hsub : ({[x]} ∪ list_to_set l : gset pystr) ⊆ list_to_set l).
    { apply union_least; [|done]. apply singleton_subseteq_l. by apply elem_of_list_to_set. }
    apply subseteq_size in Hsub. lia.
  - rewrite size_union in Hs by (apply disjoint_singleton_l; by rewrite elem_of_list_to_set).
    rewrite size_singleton in Hs. constructor; [exact Hx|]. apply IH. lia.
Qed.

Lemma not_NoDup_count (l : list pystr) :
  ~ NoDup l -> exists x, x ∈ l /\ (1 < count_name x l)%nat.
Proof.
  intros Hnd. destruct (decide (Exists (fun x => 1 < count_name x l)%nat l)) as [Hex | Hex].
  - apply Exists_exists in Hex as (x & ? & ?). eauto.
  - exfalso. apply Hnd. clear Hnd.
    assert (Hle : forall x, x ∈ l -> (count_name x l <= 1)%nat).
    { intros x Hx. destruct (decide (count_name x l <= 1)%nat); [done|].
      exfalso. apply Hex, Exists_exists. exists x. split; [done | lia]. }
    clear Hex. induction l as [|y l IH]; constructor.
    + intros Hy. specialize (Hle y (list_elem_of_here _ _)).
      unfold count_name in Hle. rewrite filter_cons_True in Hle by done. simpl in Hle.
      assert (y ∈ filter (fun z => z = y) l) by (apply list_elem_of_filter; done).
      destruct (filter (fun z => z = y) l); [set_solver | simpl in Hle; lia].
    + apply IH. intros x Hx. specialize (Hle x (list_elem_of_further _ _ _ Hx)).
      unfold count_name in *. rewrite filter_cons in Hle. case_decide; simpl in Hle; lia.
Qed.

(** Errors of a loop are errors of its body. *)
Lemma fold_res_error {A B} (f : A -> B -> res A) (acc : A) (l : list B) (e : py_error) :
  fold_res f acc l = inl e -> exists acc' x, x ∈ l /\ f acc' x = inl e.
Proof.
  revert acc. induction l as [|x l IH]; intros acc H; [discriminate|].
  simpl in H. destruct (f acc x) as [e' | acc'] eqn:Ef; simpl in H.
  - injection H as ->. exists acc, x. split; [left | exact Ef].
  - destruct (IH acc' H) as (a & y & ? & ?). exists a, y. split; [right; done | done].
Qed.

Section ReconcilerProps.
Variable iter : gset pystr -> list pystr.

Lemma run_pass_error (f : matcher) (others intracursus : gset pystr)
    (st : names_map * names_map) (e : py_error) :
  run_pass iter f others intracursus st = inl e -> e = AssertionError.
Proof.
  unfold run_pass. intros H.
  destruct (fold_res_error _ _ _ _ H) as (st1 & other & _ & H1).
  destruct (fold_res_error _ _ _ _ H1) as ([found tbv] & intra & _ & H2).
  unfold match_step in H2. destruct (matching_function f other intra); [|discriminate].
  destruct (found !! intra); [|discriminate]. by injection H2.
Qed.

Lemma run_passes_error (fs : list matcher) (others intracursus : gset pystr)
    (found tbv : names_map) (e : py_error) :
  run_passes iter fs others intracursus found tbv = inl e -> e = AssertionError.
Proof.
  revert others intracursus found tbv. induction fs as [|f fs IH]; intros ???? H; [discriminate|].
  simpl in H. destruct (run_pass iter f others intracursus (found, tbv)) as [e' | st] eqn:E.
  - injection H as ->. by apply run_pass_error in E.
  - simpl in H. by apply IH in H.
Qed.

Lemma translate_after_check_not_duplicate (others intracursus : gset pystr) name count :
  translate_after_check iter others intracursus <> Err (DuplicateNamesError name count).
Proof.
  unfold translate_after_check.
  destruct (run_passes iter matching_functions others intracursus ∅ ∅) as [e | [[[found tbv] others'] intra']] eqn:E.
  - apply run_passes_error in E as ->. discriminate.
  - simpl. destruct (iter others'); discriminate.
Qed.

End ReconcilerProps.

(** C6. Whenever the secondary names repeat a name, [translate_names]
    raises [DuplicateNamesError] with a repeated name and its count,
    whatever the canonical names and the set order (no pass has run);
    for ["A B"; "C D"; "A B"] it cites "A B" and 2. *)
Theorem duplicate_names_error (iter : gset pystr -> list pystr)
    (other_names intracursus_names : list pystr) :
  ~ NoDup other_names ->
  (exists name, name ∈ other_names /\ (2 <= count_name name other_names)%nat /\
     translate_names iter other_names intracursus_names
     = Err (DuplicateNamesError name (count_name name other_names))) /\
  translate_names iter [u "A B"; u "C D"; u "A B"] intracursus_names
  = Err (DuplicateNamesError (u "A B") 2).
Proof.
  intros Hnd. split; [|reflexivity].
  unfold translate_names.
  rewrite bool_decide_eq_true_2 by (intros Hs; apply Hnd, size_list_to_set_NoDup, Hs).
  unfold first_dup. destruct (find _ other_names) as [name|] eqn:Ef.
  - apply find_some in Ef as [Hin Hc]. apply bool_decide_eq_true in Hc.
    exists name. split; [by apply list_elem_of_In | split; [lia | reflexivity]].
  - exfalso. destruct (not_NoDup_count _ Hnd) as (x & Hx & Hc).
    apply list_elem_of_In in Hx. pose proof (find_none _ _ Ef x Hx) as Hf.
    simpl in Hf. rewrite bool_decide_eq_true_2 in Hf by exact Hc. discriminate.
Qed.

Lemma duplicate_names_error_witness :
  ~ NoDup [u "A B"; u "C D"; u "A B"] /\
  (exists name, name ∈ [u "A B"; u "C D"; u "A B"] /\
     (2 <= count_name name [u "A B"; u "C D"; u "A B"])%nat /\
     translate_names elements [u "A B"; u "C D"; u "A B"] [u "A B"]
     = Err (DuplicateNamesError name (count_name name [u "A B"; u "C D"; u "A B"]))) /\
  translate_names elements [u "A B"; u "C D"; u "A B"] [u "A B"]
  = Err (DuplicateNamesError (u "A B") 2).
Proof.
  assert (H : ~ NoDup [u "A B"; u "C D"; u "A B"]) by (intros Hn; inversion_clear Hn as [|? ? Hx]; apply Hx; right; left).
  split; [exact H|]. apply (duplicate_names_error elements _ _ H).
Defined.

(** C10. The duplicate check compares raw strings: secondary names that
    are distinct strings, even with equal word sets (such as "Jean Dupont"
    and "Dupont Jean"), raise no [DuplicateNamesError] and both enter the
    matching passes. *)
Theorem duplicate_check_raw_strings (iter : gset pystr -> list pystr)
    (other_names intracursus_names : list pystr) (a b : pystr) :
  NoDup other_names -> a ∈ other_names -> b ∈ other_names -> a <> b -> norm a = norm b ->
  translate_names iter other_names intracursus_names
  = translate_after_check iter (list_to_set other_names) (list_to_set intracursus_names) /\
  a ∈ (list_to_set other_names : gset pystr) /\ b ∈ (list_to_set other_names : gset pystr) /\
  (forall name count,
     translate_names iter other_names intracursus_names <> Err (DuplicateNamesError name count)).
Proof.
  intros Hnd Ha Hb _ _.
  assert (E : translate_names iter other_names intracursus_names
              = translate_after_check iter (list_to_set other_names) (list_to_set intracursus_names)).
  { unfold translate_names. rewrite bool_decide_eq_false_2; [reflexivity|].
    rewrite size_list_to_set by exact Hnd. auto. }
  split; [exact E|]. split; [by apply elem_of_list_to_set|].
  split; [by apply elem_of_list_to_set|].
  intros name count. rewrite E. apply translate_after_check_not_duplicate.
Qed.

Lemma duplicate_check_raw_strings_witness :
  translate_names elements [u "Jean Dupont"; u "Dupont Jean"] [u "Paul Durand"]
  = translate_after_check elements (list_to_set [u "Jean Dupont"; u "Dupont Jean"])
      (list_to_set [u "Paul Durand"]) /\
  u "Jean Dupont" ∈ (list_to_set [u "Jean Dupont"; u "Dupont Jean"] : gset pystr) /\
  u "Dupont Jean" ∈ (list_to_set [u "Jean Dupont"; u "Dupont Jean"] : gset pystr) /\
  (forall name count,
     translate_names elements [u "Jean Dupont"; u "Dupont Jean"] [u "Paul Durand"]
     <> Err (DuplicateNamesError name count)).
Proof.
  apply (duplicate_check_raw_strings elements _ _ (u "Jean Dupont") (u "Dupont Jean")).
  - apply (bool_decide_unpack _). vm_compute. exact I.
  - apply (bool_decide_unpack _). vm_compute. exact I.
  - apply (bool_decide_unpack _). vm_compute. exact I.
  - apply (bool_decide_unpack _). vm_compute. exact I.
  - vm_compute. reflexivity.
Defined.

(** A loop preserves any reflexive, transitive relation its body keeps. *)
Lemma fold_res_preserve {A B} (R : A -> A -> Prop) (f : A -> B -> res A) (l : list B) :
  (forall a, R a a) -> (forall a b c, R a b -> R b c -> R a c) ->
  (forall a x a', x ∈ l -> f a x = inr a' -> R a a') ->
  forall acc acc', fold_res f acc l = inr acc' -> R acc acc'.
Proof.
  intros Hrefl Htrans Hstep. induction l as [|x l IH]; intros acc acc' H.
  - simpl in H. injection H as <-. apply Hrefl.
  - simpl in H. destruct (f acc x) as [e | a1] eqn:E; [discriminate|]. simpl in H.
    apply (Htrans _ a1).
    + apply (Hstep acc x); [left | exact E].
    + apply IH; [|exact H]. intros a y a' Hy. apply Hstep. by right.
Qed.

Lemma grows_within_refl O I found : grows_within O I found found.
Proof. split; [reflexivity | auto]. Qed.

Lemma grows_within_trans O I f1 f2 f3 :
  grows_within O I f1 f2 -> grows_within O I f2 f3 -> grows_within O I f1 f3.
Proof.
  intros [H12 K12] [H23 K23]. split; [by transitivity f2|].
  intros k v Hk. destruct (K23 k v Hk) as [H | H]; [|auto]. by apply K12.
Qed.

Lemma match_step_grows (O I : gset pystr) (f : matcher) (other intra : pystr)
    (st st' : names_map * names_map) :
  other ∈ O -> intra ∈ I -> match_step f other st intra = inr st' ->
  grows_within O I st.1 st'.1.
Proof.
  destruct st as [found tbv]. intros Ho Hi H. unfold match_step in H.
  destruct (matching_function f other intra).
  - destruct (found !! intra) eqn:E; [discriminate|]. injection H as <-. simpl.
    split; [by apply insert_subseteq|].
    intros k v Hk. rewrite lookup_insert in Hk. case_decide; [|auto].
    subst. injection Hk as <-. auto.
  - injection H as <-. apply grows_within_refl.
Qed.

Section ReconcilerInvariants.
Variable iter : gset pystr -> list pystr.
(** [iter s] enumerates the elements of [s], each once. *)
Hypothesis iter_ok : forall s, iter s ≡ₚ elements s.

Lemma iter_elem (s : gset pystr) x : x ∈ iter s <-> x ∈ s.
Proof. rewrite (iter_ok s). apply elem_of_elements. Qed.

Lemma run_pass_grows (f : matcher) (O I : gset pystr) st st' :
  run_pass iter f O I st = inr st' -> grows_within O I st.1 st'.1.
Proof.
  unfold run_pass.
  apply (fold_res_preserve (fun a b => grows_within O I a.1 b.1)).
  - intros. apply grows_within_refl.
  - intros ???. apply grows_within_trans.
  - intros a other a' Ho. apply iter_elem in Ho.
    apply (fold_res_preserve (fun a b => grows_within O I a.1 b.1)).
    + intros. apply grows_within_refl.
    + intros ???. apply grows_within_trans.
    + intros b intra b' Hi. apply iter_elem in Hi. by apply match_step_grows.
Qed.

(** The passes only add entries from [I] to [O], and the secondary names
    left at the end are those of [O] that are not values of [found]. *)
Lemma run_passes_inv (fs : list matcher) (O I : gset pystr) found tbv found' tbv' O' I' :
  map_img found ## O ->
  run_passes iter fs O I found tbv = inr (found', tbv', O', I') ->
  grows_within O I found found' /\ O' = O ∖ map_img found'.
Proof.
  revert O I found tbv. induction fs as [|f fs IH]; intros O I found tbv Hdisj H.
  - simpl in H. injection H as <- <- <- <-. split; [apply grows_within_refl | set_solver].
  - simpl in H. destruct (run_pass iter f O I (found, tbv)) as [e | st] eqn:E; [discriminate|].
    simpl in H. apply run_pass_grows in E as Hg. simpl in Hg.
    apply IH in H as [[Hsub Hk] HO]; [|set_solver].
    assert (Himg : (map_img st.1 : gset pystr) ⊆ map_img found') by (by apply map_subseteq_img).
    split.
    + split; [by transitivity st.1; [apply Hg|]|].
      intros k v Hkv. destruct (Hk k v Hkv) as [H1 | [H1 H2]].
      * destruct Hg as [_ Hg]. by apply Hg.
      * right. set_solver.
    + rewrite HO. set_solver.
Qed.
End ReconcilerInvariants.

Section TranslateNamesResult.
Variable iter : gset pystr -> list pystr.
Hypothesis iter_ok : forall s, iter s ≡ₚ elements s.

(** Once the duplicate check is passed and the passes have run,
    [translate_names] raises on the first remaining secondary name. *)
Lemma translate_names_result (l1 l2 : list pystr) found tbv O' I' :
  NoDup l1 ->
  run_passes iter matching_functions (list_to_set l1) (list_to_set l2) ∅ ∅
  = inr (found, tbv, O', I') ->
  translate_names iter l1 l2 = match iter O' with
                               | [] => Ok (found, tbv)
                               | name :: _ => Err (UnknownNameError name)
                               end.
Proof.
  intros Hnd Hrun. unfold translate_names.
  rewrite bool_decide_eq_false_2 by (rewrite size_list_to_set by exact Hnd; auto).
  unfold translate_after_check. rewrite Hrun. reflexivity.
Qed.

Lemma translate_names_ok_inv (l1 l2 : list pystr) found tbv :
  translate_names iter l1 l2 = Ok (found, tbv) ->
  NoDup l1 /\ exists O' I',
    run_passes iter matching_functions (list_to_set l1) (list_to_set l2) ∅ ∅
    = inr (found, tbv, O', I') /\ iter O' = [].
Proof.
  unfold translate_names. case_bool_decide as Hs.
  - destruct (first_dup l1); discriminate.
  - intros H. split.
    + apply size_list_to_set_NoDup. destruct (decide (size (list_to_set l1 : gset pystr) = length l1)); [done|].
      contradiction.
    + unfold translate_after_check in H.
      destruct (run_passes iter matching_functions (list_to_set l1) (list_to_set l2) ∅ ∅)
        as [e | [[[f t] O'] I']]; [discriminate|].
      simpl in H. exists O', I'. destruct (iter O'); [|discriminate].
      injection H as -> ->. auto.
Qed.

End TranslateNamesResult.

(** C2 (as amended). When [translate_names] returns normally, every key of
    [found] is a canonical name and every value a secondary name; [found]
    maps each canonical name at most once, so its size never exceeds the
    number of distinct canonical names. (The reverse direction is not
    injective: see [translate_names_not_injective].) *)
Theorem translate_names_mapping (iter : gset pystr -> list pystr)
    (iter_ok : forall s, iter s ≡ₚ elements s)
    (other_names intracursus_names : list pystr) (found to_be_verified : names_map) :
  translate_names iter other_names intracursus_names = Ok (found, to_be_verified) ->
  dom found ⊆ (list_to_set intracursus_names : gset pystr) /\
  (map_img found : gset pystr) ⊆ list_to_set other_names /\
  (size found <= size (list_to_set intracursus_names : gset pystr))%nat.
Proof.
  intros H. apply translate_names_ok_inv in H as (_ & O' & I' & Hrun & _).
  apply (run_passes_inv iter iter_ok) in Hrun as [[_ Hk] _]; [|rewrite map_img_empty_L; set_solver].
  assert (Hdom : dom found ⊆ (list_to_set intracursus_names : gset pystr)).
  { intros k Hd. apply elem_of_dom in Hd as [v Hv]. destruct (Hk k v Hv) as [E | [? ?]]; [|done].
    by rewrite lookup_empty in E. }
  split; [exact Hdom|]. split.
  - intros v Hv. apply elem_of_map_img in Hv as [k Hkv].
    destruct (Hk k v Hkv) as [E | [? ?]]; [|done]. by rewrite lookup_empty in E.
  - rewrite <- size_dom. by apply subseteq_size.
Qed.

Lemma translate_names_mapping_witness :
  translate_names elements [u "Dupont Jean"; u "Durand"]
    [u "Jean Dupont"; u "Paul Durand"; u "Luc Martin"]
  = Ok (<[u "Jean Dupont" := u "Dupont Jean"]> (<[u "Paul Durand" := u "Durand"]> ∅), ∅) /\
  dom (<[u "Jean Dupont" := u "Dupont Jean"]> (<[u "Paul Durand" := u "Durand"]> ∅) : names_map)
    ⊆ (list_to_set [u "Jean Dupont"; u "Paul Durand"; u "Luc Martin"] : gset pystr) /\
  (map_img (<[u "Jean Dupont" := u "Dupont Jean"]> (<[u "Paul Durand" := u "Durand"]> ∅) : names_map)
     : gset pystr) ⊆ list_to_set [u "Dupont Jean"; u "Durand"] /\
  (size (<[u "Jean Dupont" := u "Dupont Jean"]> (<[u "Paul Durand" := u "Durand"]> ∅) : names_map)
   <= size (list_to_set [u "Jean Dupont"; u "Paul Durand"; u "Luc Martin"] : gset pystr))%nat.
Proof.
  assert (H : translate_names elements [u "Dupont Jean"; u "Durand"]
                [u "Jean Dupont"; u "Paul Durand"; u "Luc Martin"]
              = Ok (<[u "Jean Dupont" := u "Dupont Jean"]> (<[u "Paul Durand" := u "Durand"]> ∅), ∅))
    by (vm_compute; reflexivity).
  split; [exact H|]. apply (translate_names_mapping elements (fun s => reflexivity _) _ _ _ _ H).
Defined.

(** C2 fails as stated: the secondary name "Dupont" is contained in two
    canonical names, both matched in the [contain] pass, so it is the
    target of two canonical names and the mapping (size 2) outgrows the
    single secondary name. *)
Lemma translate_names_not_injective :
  exists found to_be_verified,
    translate_names elements [u "Dupont"] [u "Jean Dupont"; u "Marie Dupont"]
    = Ok (found, to_be_verified) /\
    found !! u "Jean Dupont" = Some (u "Dupont") /\
    found !! u "Marie Dupont" = Some (u "Dupont") /\
    size found = 2%nat.
Proof.
  exists (<[u "Jean Dupont" := u "Dupont"]> (<[u "Marie Dupont" := u "Dupont"]> ∅)), ∅.
  vm_compute. repeat split; reflexivity.
Qed.

(** C3 (code defect). Two secondary names that match the same canonical
    name in one pass make the assertion of [translate_names] fire, in
    either set order: in the [match] pass for "Jean Dupont" and
    "Dupont Jean", in the [contain] pass for "Jean" and "Dupont". *)
Lemma translate_names_assertion_fires :
  translate_names elements [u "Jean Dupont"; u "Dupont Jean"] [u "Jean Dupont"] = Err AssertionError /\
  translate_names (fun s => reverse (elements s)) [u "Jean Dupont"; u "Dupont Jean"] [u "Jean Dupont"]
  = Err AssertionError /\
  translate_names elements [u "Jean"; u "Dupont"] [u "Jean Dupont"] = Err AssertionError /\
  translate_names (fun s => reverse (elements s)) [u "Jean"; u "Dupont"] [u "Jean Dupont"]
  = Err AssertionError.
Proof. vm_compute. repeat split; reflexivity. Qed.

(** C7. Once the duplicate check is passed and the three passes have run,
    [translate_names] raises [UnknownNameError] exactly when some
    secondary name is not the value of any entry of [found], and the name
    it cites is such a name; it returns normally, with [found], exactly
    when every secondary name is matched, whatever canonical names are
    left unmatched. *)
Theorem unknown_name_iff (iter : gset pystr -> list pystr)
    (iter_ok : forall s, iter s ≡ₚ elements s)
    (other_names intracursus_names : list pystr) found to_be_verified O' I' :
  NoDup other_names ->
  run_passes iter matching_functions (list_to_set other_names) (list_to_set intracursus_names) ∅ ∅
  = inr (found, to_be_verified, O', I') ->
  ((exists name, translate_names iter other_names intracursus_names = Err (UnknownNameError name))
   <-> exists x, x ∈ other_names /\ x ∉ (map_img found : gset pystr)) /\
  (forall name, translate_names iter other_names intracursus_names = Err (UnknownNameError name) ->
   name ∈ other_names /\ name ∉ (map_img found : gset pystr)) /\
  (translate_names iter other_names intracursus_names = Ok (found, to_be_verified)
   <-> forall x, x ∈ other_names -> x ∈ (map_img found : gset pystr)).
Proof.
  intros Hnd Hrun.
  rewrite (translate_names_result iter _ _ _ _ _ _ Hnd Hrun).
  apply (run_passes_inv iter iter_ok) in Hrun as [_ HO]; [|rewrite map_img_empty_L; set_solver].
  assert (Hmem : forall x, x ∈ iter O' <-> x ∈ other_names /\ x ∉ (map_img found : gset pystr)).
  { intros x. rewrite (iter_elem iter iter_ok), HO, elem_of_difference, elem_of_list_to_set. tauto. }
  destruct (iter O') as [|n rest] eqn:Ei.
  - split; [split; [intros [? ?]; discriminate | intros (x & Hx & Hn); exfalso;
                                         apply (not_elem_of_nil x), Hmem; auto]|].
    split; [intros ? ?; discriminate|].
    split; [|reflexivity]. intros _ x Hx.
    destruct (decide (x ∈ (map_img found : gset pystr))) as [|Hn]; [done|].
    exfalso. apply (not_elem_of_nil x), Hmem. auto.
  - assert (Hn : n ∈ other_names /\ n ∉ (map_img found : gset pystr)) by (apply Hmem; left).
    split; [split; [intros _; exists n; exact Hn | intros _; eauto]|].
    split; [intros name E; injection E as <-; exact Hn|].
    split; [intros ?; discriminate|]. intros Hall. exfalso. apply (proj2 Hn), Hall, Hn.
Qed.

Lemma unknown_name_iff_witness :
  NoDup [u "Dupont Jean"; u "Durand"] /\
  run_passes elements matching_functions (list_to_set [u "Dupont Jean"; u "Durand"])
    (list_to_set [u "Jean Dupont"; u "Paul Durand"; u "Luc Martin"]) ∅ ∅
  = inr (<[u "Jean Dupont" := u "Dupont Jean"]> (<[u "Paul Durand" := u "Durand"]> ∅), ∅,
         ∅, {[u "Luc Martin"]}) /\
  ((exists name, translate_names elements [u "Dupont Jean"; u "Durand"]
                   [u "Jean Dupont"; u "Paul Durand"; u "Luc Martin"] = Err (UnknownNameError name))
   <-> exists x, x ∈ [u "Dupont Jean"; u "Durand"] /\
         x ∉ (map_img (<[u "Jean Dupont" := u "Dupont Jean"]> (<[u "Paul Durand" := u "Durand"]> ∅)
                        : names_map) : gset pystr)) /\
  (forall name, translate_names elements [u "Dupont Jean"; u "Durand"]
                  [u "Jean Dupont"; u "Paul Durand"; u "Luc Martin"] = Err (UnknownNameError name) ->
   name ∈ [u "Dupont Jean"; u "Durand"] /\
   name ∉ (map_img (<[u "Jean Dupont" := u "Dupont Jean"]> (<[u "Paul Durand" := u "Durand"]> ∅)
                     : names_map) : gset pystr)) /\
  (translate_names elements [u "Dupont Jean"; u "Durand"]
     [u "Jean Dupont"; u "Paul Durand"; u "Luc Martin"]
   = Ok (<[u "Jean Dupont" := u "Dupont Jean"]> (<[u "Paul Durand" := u "Durand"]> ∅), ∅)
   <-> forall x, x ∈ [u "Dupont Jean"; u "Durand"] ->
       x ∈ (map_img (<[u "Jean Dupont" := u "Dupont Jean"]> (<[u "Paul Durand" := u "Durand"]> ∅)
                      : names_map) : gset pystr)).
Proof.
  assert (H1 : NoDup [u "Dupont Jean"; u "Durand"])
    by (apply (bool_decide_unpack _); vm_compute; exact I).
  assert (H2 : run_passes elements matching_functions (list_to_set [u "Dupont Jean"; u "Durand"])
    (list_to_set [u "Jean Dupont"; u "Paul Durand"; u "Luc Martin"]) ∅ ∅
    = inr (<[u "Jean Dupont" := u "Dupont Jean"]> (<[u "Paul Durand" := u "Durand"]> ∅), ∅,
           ∅, {[u "Luc Martin"]})) by (vm_compute; reflexivity).
  split; [exact H1|]. split; [exact H2|].
  apply (unknown_name_iff elements (fun s => reflexivity _) _ _ _ _ _ _ H1 H2).
Defined.

(* ------------------------------------------------------------------ *)
(** ** Properties of the write-back loop of [fill_scores] *)

Lemma slice_1_3 (row : list cell) a b :
  drop 1 (take 3 row) = [a; b] -> row !! 1%nat = Some a /\ row !! 2%nat = Some b.
Proof.
  destruct row as [|x0 [|x1 [|x2 row]]]; simpl; intros H; try discriminate.
  injection H as -> ->. auto.
Qed.

(** One iteration: row [i] gets its score cell possibly replaced, and the
    review marker appended when its name is in [to_be_verified]. *)
Lemma fill_row_spec (sheet : SheetData) (tbv : names_map) (i : nat) (score : cell) sheet1 :
  fill_row sheet tbv i score = inr sheet1 ->
  exists row row_upd fn ln,
    sheet !! i = Some row /\ row !! 1%nat = Some fn /\ row !! 2%nat = Some ln /\
    length row_upd = length row /\ (forall j, j <> 3%nat -> row_upd !! j = row !! j) /\
    sheet1 = <[i := row_upd ++ match tbv !! (py_str fn ++ u " " ++ py_str ln) with
                              | Some other => [CStr (other ++ u " ?")]
                              | None => []
                              end]> sheet /\
    (i < length sheet)%nat.
Proof.
  unfold fill_row, list_get, list_set.
  destruct (sheet !! i) as [row|] eqn:Hrow; cbv [mbind res_bind Ok Err]; [|intros ?; discriminate].
  destruct (row !! 0%nat) as [c0|]; cbv [mbind res_bind Ok Err]; [|intros ?; discriminate].
  intros H.
  set (score' := match score with
                 | CStr s => if startswith s (u "#") then ABI else score
                 | _ => score
                 end) in H.
  set (upd := negb (cell_eqb c0 (CStr []) && cell_eqb score' ABI)) in H.
  assert (Hupd : exists row_upd, ((if upd then (if decide (3 < length row)%nat
                  then inr (<[3%nat := score']> row) else inl IndexError) else inr row)
                  : res (list cell)) = inr row_upd /\ length row_upd = length row /\
                  (forall j, j <> 3%nat -> row_upd !! j = row !! j)).
  { revert H. destruct upd.
    - destruct (decide (3 < length row)%nat); cbv [mbind res_bind Ok Err]; [|intros ?; discriminate]. intros _.
      eexists. split; [reflexivity|]. split; [apply length_insert|].
      intros j Hj. by apply list_lookup_insert_ne.
    - intros _. eexists. split; [reflexivity|]. auto. }
  destruct Hupd as (row_upd & Hru & Hlen & Hj).
  rewrite Hru in H. cbv [mbind res_bind Ok Err] in H. revert H.
  destruct (drop 1 (take 3 row_upd)) as [|a [|b [|? ?]]] eqn:Hs; cbv [mbind res_bind Ok Err]; intros H; try discriminate.
  apply slice_1_3 in Hs as [Ha Hb].
  rewrite Hj in Ha by lia. rewrite Hj in Hb by lia.
  exists row, row_upd, a, b. split; [reflexivity|]. do 4 (split; [assumption|]).
  revert H. destruct (decide (i < length sheet)%nat) as [Hi|Hi]; cbv [mbind res_bind Ok Err]; intros H; [|discriminate].
  injection H as <-. split; [|exact Hi].
  destruct (tbv !! _); [reflexivity | by rewrite app_nil_r].
Qed.

(** C9. The write-back loop of [fill_scores] (from row [i0], here 6)
    leaves rows outside its range alone; each row in its range keeps
    every cell but the score cell (index 3) and gets exactly one
    appended cell, the matched secondary name followed by " ?", when its
    name is in [to_be_verified], and no appended cell otherwise. *)
Theorem fill_scores_loop_marks (sheet : SheetData) (to_be_verified : names_map) (i0 : nat)
    (scores_ : list cell) (sheet' : SheetData) :
  fill_scores_loop sheet to_be_verified i0 scores_ = Ok sheet' ->
  length sheet' = length sheet /\
  (forall i row, sheet !! i = Some row -> (i < i0 \/ i0 + length scores_ <= i)%nat ->
     sheet' !! i = Some row) /\
  (forall i row, sheet !! i = Some row -> (i0 <= i < i0 + length scores_)%nat ->
     exists row_upd fn ln,
       row !! 1%nat = Some fn /\ row !! 2%nat = Some ln /\
       length row_upd = length row /\ (forall j, j <> 3%nat -> row_upd !! j = row !! j) /\
       sheet' !! i = Some (row_upd ++ match to_be_verified !! (py_str fn ++ u " " ++ py_str ln) with
                                      | Some other => [CStr (other ++ u " ?")]
                                      | None => []
                                      end)).
Proof.
  revert sheet i0. induction scores_ as [|score rest IH]; intros sheet i0 H.
  - cbv [fill_scores_loop Ok] in H. injection H as <-.
    split; [reflexivity|]. split; [auto|]. intros i row _ Hi. simpl in Hi. lia.
  - cbn [fill_scores_loop] in H.
    destruct (fill_row sheet to_be_verified i0 score) as [e | sheet1] eqn:E;
      cbv [mbind res_bind] in H; [discriminate|].
    apply fill_row_spec in E as (row0 & row_upd0 & fn & ln & Hr0 & Hfn & Hln & Hlen & Hj & -> & Hi0).
    apply IH in H as (Hl & Hframe & Hmark). simpl length.
    split; [by rewrite Hl, length_insert|]. split.
    + intros i row Hrow Hi. apply Hframe; [|lia].
      rewrite list_lookup_insert_ne by lia. exact Hrow.
    + intros i row Hrow Hi. destruct (decide (i = i0)) as [-> | Hne].
      * rewrite Hrow in Hr0. injection Hr0 as <-.
        exists row_upd0, fn, ln. do 4 (split; [assumption|]).
        apply Hframe; [|lia]. by apply list_lookup_insert_eq.
      * apply Hmark; [|lia]. rewrite list_lookup_insert_ne by lia. exact Hrow.
Qed.

Lemma fill_scores_loop_marks_witness :
  fill_scores_loop (header ++ [[CInt 1; CStr (u "Jean"); CStr (u "Dupont"); CFloat (u "12.0")];
                              [CInt 2; CStr (u "Sabrina"); CStr (u "Alkissi"); CStr []]])
    {[u "Sabrina Alkissi" := u "alkissi durand"]} 6 [ABI; CFloat (u "15.5")]
  = Ok (header ++ [[CInt 1; CStr (u "Jean"); CStr (u "Dupont"); ABI];
                   [CInt 2; CStr (u "Sabrina"); CStr (u "Alkissi"); CFloat (u "15.5");
                    CStr (u "alkissi durand ?")]]) /\
  exists row_upd fn ln,
    [CInt 2; CStr (u "Sabrina"); CStr (u "Alkissi"); CStr []] !! 1%nat = Some fn /\
    [CInt 2; CStr (u "Sabrina"); CStr (u "Alkissi"); CStr []] !! 2%nat = Some ln /\
    length row_upd = 4%nat /\
    (forall j, j <> 3%nat -> row_upd !! j = [CInt 2; CStr (u "Sabrina"); CStr (u "Alkissi"); CStr []] !! j) /\
    (header ++ [[CInt 1; CStr (u "Jean"); CStr (u "Dupont"); ABI];
                [CInt 2; CStr (u "Sabrina"); CStr (u "Alkissi"); CFloat (u "15.5");
                 CStr (u "alkissi durand ?")]]) !! 7%nat
    = Some (row_upd ++ match ({[u "Sabrina Alkissi" := u "alkissi durand"]} : names_map)
                               !! (py_str fn ++ u " " ++ py_str ln) with
                       | Some other => [CStr (other ++ u " ?")]
                       | None => []
                       end).
Proof.
  assert (H : fill_scores_loop (header ++ [[CInt 1; CStr (u "Jean"); CStr (u "Dupont"); CFloat (u "12.0")];
                              [CInt 2; CStr (u "Sabrina"); CStr (u "Alkissi"); CStr []]])
    {[u "Sabrina Alkissi" := u "alkissi durand"]} 6 [ABI; CFloat (u "15.5")]
  = Ok (header ++ [[CInt 1; CStr (u "Jean"); CStr (u "Dupont"); ABI];
                   [CInt 2; CStr (u "Sabrina"); CStr (u "Alkissi"); CFloat (u "15.5");
                    CStr (u "alkissi durand ?")]])) by (vm_compute; reflexivity).
  split; [exact H|].
  destruct (fill_scores_loop_marks _ _ _ _ _ H) as (_ & _ & Hmark).
  apply (Hmark 7%nat); [reflexivity | simpl; lia].
Defined.

(* ------------------------------------------------------------------ *)
(** ** Code defects *)

(** C1 (code defect). The guard of [fill_scores] tests cell 0 (the
    identifier) for emptiness instead of the score cell: the recorded
    score 12.0 of "Jean Dupont", who has no secondary entry, is replaced
    by "ABI", while the recorded 9.0 of the row without identifier is
    kept. *)
Lemma fill_scores_clobbers_recorded_score :
  fill_scores elements sheet_recorded other_recorded
  = Ok (header ++ [[CInt 1; CStr (u "Jean"); CStr (u "Dupont"); ABI];
                   [CInt 2; CStr (u "Marie"); CStr (u "Curie"); CFloat (u "15.5")];
                   [CStr []; CStr (u "Paul"); CStr (u "Martin"); CFloat (u "9.0")]]).
Proof. vm_compute. reflexivity. Qed.

(** C4 (code defect). On the identifier path, [scores[id_]] raises
    [KeyError] for a canonical identifier missing from the secondary
    sheet, where the name path defaults to "ABI". *)
Lemma missing_id_raises_keyerror :
  fill_scores elements sheet_ids other_by_id = Err KeyError /\
  update_intracursus_data elements
    (mkIntracursusData [CInt 2000001; CInt 2000002] [u "Jean Dupont"; u "Marie Curie"] [CStr []; CStr []])
    (mkOtherData [2000001] [] [CFloat (u "15.5")])
  = Err KeyError.
Proof. vm_compute. split; reflexivity. Qed.

(* ------------------------------------------------------------------ *)
(** ** Further properties of the normaliser and the matchers *)

Lemma casefold_changes_capitals :
  forallb (fun c => negb (bool_decide (casefold_char c = [c])))
    (map (fun k => 65 + Z.of_nat k) (seq 0 26) ++
     map (fun k => 192 + Z.of_nat k) (seq 0 23) ++
     map (fun k => 216 + Z.of_nat k) (seq 0 7)) = true.
Proof. vm_compute. reflexivity. Qed.

Lemma casefold_char_fixed_range (c : Z) :
  casefold_char c = [c] -> ~ (65 <= c <= 90) /\ ~ (192 <= c <= 222 /\ c <> 215).
Proof.
  intros Hc. pose proof casefold_changes_capitals as H.
  rewrite forallb_forall in H.
  assert (Hin : 65 <= c <= 90 \/ (192 <= c <= 222 /\ c <> 215) ->
    In c (map (fun k => 65 + Z.of_nat k) (seq 0 26) ++
          map (fun k => 192 + Z.of_nat k) (seq 0 23) ++
          map (fun k => 216 + Z.of_nat k) (seq 0 7))).
  { intros Hr. rewrite !in_app_iff, !in_map_iff.
    destruct Hr as [Hr | [Hr Hne]].
    - left. exists (Z.to_nat (c - 65)). rewrite in_seq. split; lia.
    - right. destruct (Z.lt_ge_cases c 215).
      + left. exists (Z.to_nat (c - 192)). rewrite in_seq. split; lia.
      + right. exists (Z.to_nat (c - 216)). rewrite in_seq. split; lia. }
  split.
  - intros Hr. specialize (H c (Hin (or_introl Hr))).
    rewrite bool_decide_eq_true_2 in H by exact Hc. discriminate H.
  - intros Hr. specialize (H c (Hin (or_intror Hr))).
    rewrite bool_decide_eq_true_2 in H by exact Hc. discriminate H.
Qed.

Lemma translate_char_fixed_not_source (c : Z) :
  translate_char c = c -> c ∉ map fst CONVERSION.
Proof.
  intros Hc Hin. cbn [map CONVERSION fst] in Hin. set_unfold in Hin.
  destruct_or? Hin; subst; discriminate Hc.
Qed.

(** The words of [norm name] are non-empty; each of their characters is
    left unchanged by [str.casefold], is no whitespace, in particular is
    no ASCII or Latin-1 capital letter, and is none of the characters that
    [TABLE] rewrites (accented letters, hyphen, underscore). *)
Theorem norm_word_chars (name w : pystr) :
  w ∈ norm name ->
  w <> [] /\
  forall c, c ∈ w ->
    casefold_char c = [c] /\ is_space c = false /\ ~ (65 <= c <= 90) /\ ~ (192 <= c <= 222 /\ c <> 215) /\
    c ∉ map fst CONVERSION.
Proof.
  intros Hw. destruct (norm_words name w Hw) as [Hne Hc]. split; [exact Hne|].
  intros c Hcw. destruct (Hc c Hcw) as [[Hcf Htr] Hsp].
  destruct (casefold_char_fixed_range c Hcf) as [H1 H2].
  split; [exact Hcf|]. split; [exact Hsp|]. split; [exact H1|]. split; [exact H2|].
  by apply translate_char_fixed_not_source.
Qed.

Lemma norm_word_chars_witness :
  u "dupont" ∈ norm (201 :: u "ric Dupont-Martin") /\
  u "dupont" <> [] /\
  forall c, c ∈ u "dupont" ->
    casefold_char c = [c] /\ is_space c = false /\ ~ (65 <= c <= 90) /\ ~ (192 <= c <= 222 /\ c <> 215) /\
    c ∉ map fst CONVERSION.
Proof.
  assert (H : u "dupont" ∈ norm (201 :: u "ric Dupont-Martin"))
    by (apply (bool_decide_unpack _); vm_compute; exact I).
  split; [exact H|]. apply (norm_word_chars _ _ H).
Defined.

(** The three matchers are symmetric: the order in which
    [translate_names] passes its arguments does not matter. *)
Theorem matchers_symmetric (name1 name2 : pystr) :
  match_ name1 name2 = match_ name2 name1 /\
  contain name1 name2 = contain name2 name1 /\
  partial_match name1 name2 = partial_match name2 name1.
Proof.
  split; [|split].
  - unfold match_. apply bool_decide_ext. split; intros; done.
  - unfold contain. apply orb_comm.
  - unfold partial_match. by rewrite intersection_comm_L.
Qed.



(* ------------------------------------------------------------------ *)
(** ** Properties of the reconciler passes *)

Lemma fold_res_reach {A B} (P : A -> Prop) (f : A -> B -> res A) (x : B) (l : list B) :
  x ∈ l ->
  (forall a a', f a x = inr a' -> P a') ->
  (forall a y a', P a -> f a y = inr a' -> P a') ->
  forall acc acc', fold_res f acc l = inr acc' -> P acc'.
Proof.
  intros Hx Hat Hkeep. induction l as [|y l IH]; intros acc acc' H.
  - by apply elem_of_nil in Hx.
  - simpl in H. destruct (f acc y) as [e | a1] eqn:E; [discriminate|]. simpl in H.
    apply elem_of_cons in Hx as [-> | Hx].
    + apply Hat in E. revert E.
      apply (fold_res_preserve (fun a b => P a -> P b) f l); [auto|auto| |exact H].
      intros a z a' _ Hf Ha. by apply (Hkeep a z a').
    + by apply (IH Hx a1).
Qed.

Lemma match_step_sub (f : matcher) (other intra : pystr) st st' :
  match_step f other st intra = inr st' -> st.1 ⊆ st'.1.
Proof.
  destruct st as [found tbv]. unfold match_step.
  destruct (matching_function f other intra); [|intros H; by injection H as <-].
  destruct (found !! intra) eqn:E; [discriminate|]. intros H. injection H as <-.
  by apply insert_subseteq.
Qed.

Lemma match_step_rel (f : matcher) (O I : gset pystr) (other intra : pystr) st st' :
  other ∈ O -> intra ∈ I -> match_step f other st intra = inr st' -> pass_rel f O I st st'.
Proof.
  destruct st as [found tbv]. intros Ho Hi. unfold match_step.
  destruct (matching_function f other intra) eqn:Hf.
  - destruct (found !! intra) eqn:E; [discriminate|]. intros H. injection H as <-. unfold pass_rel; simpl.
    split; [|split].
    + intros k v Hk. rewrite lookup_insert in Hk. case_decide; [|auto].
      subst. injection Hk as <-. auto.
    + intros k v Hk. destruct f; try (left; exact Hk).
      rewrite lookup_insert in Hk. case_decide; [|auto].
      subst. injection Hk as <-. right. auto.
    + intros Hsub. destruct f; try (etransitivity; [exact Hsub|]; by apply insert_subseteq).
      by apply insert_mono.
  - intros H. injection H as <-. split; [auto|split; auto].
Qed.

Lemma pass_rel_refl f O I st : pass_rel f O I st st.
Proof. split; [auto|split; auto]. Qed.

Lemma pass_rel_trans f O I s1 s2 s3 :
  pass_rel f O I s1 s2 -> pass_rel f O I s2 s3 -> pass_rel f O I s1 s3.
Proof.
  intros [A1 [B1 C1]] [A2 [B2 C2]]. split; [|split].
  - intros k v H. destruct (A2 k v H); auto.
  - intros k v H. destruct (B2 k v H); auto.
  - auto.
Qed.

Section PassProps.
Variable iter : gset pystr -> list pystr.
Hypothesis iter_ok : forall s, iter s ≡ₚ elements s.

Lemma run_pass_rel (f : matcher) (O I : gset pystr) st st' :
  run_pass iter f O I st = inr st' -> pass_rel f O I st st'.
Proof.
  unfold run_pass.
  apply (fold_res_preserve (pass_rel f O I)).
  - apply pass_rel_refl.
  - apply pass_rel_trans.
  - intros a other a' Ho. apply (iter_elem iter iter_ok) in Ho.
    apply (fold_res_preserve (pass_rel f O I)).
    + apply pass_rel_refl.
    + apply pass_rel_trans.
    + intros b intra b' Hi. apply (iter_elem iter iter_ok) in Hi. by apply match_step_rel.
Qed.

(** A pass that completes leaves no pair of its pools that its matcher
    accepts with the canonical name still unassigned. *)
Lemma run_pass_complete (f : matcher) (O I : gset pystr) st st' o i :
  run_pass iter f O I st = inr st' -> o ∈ O -> i ∈ I ->
  matching_function f o i = true -> i ∈ dom st'.1.
Proof.
  intros H Ho Hi Hf. unfold run_pass in H.
  apply (iter_elem iter iter_ok) in Ho, Hi.
  revert H. apply (fold_res_reach (fun a => i ∈ dom a.1) _ o); [exact Ho| |].
  - intros a a'. apply (fold_res_reach (fun a => i ∈ dom a.1) _ i); [exact Hi| |].
    + intros b b'. destruct b as [found tbv]. unfold match_step. rewrite Hf.
      destruct (found !! i); [discriminate|]. intros Hb. injection Hb as <-. simpl.
      rewrite dom_insert_L. set_solver.
    + intros b y b' Hb Hs. apply match_step_sub in Hs. apply elem_of_dom.
      apply elem_of_dom in Hb as [v Hv]. exists v. by eapply lookup_weaken.
  - intros a y a' Ha Hs.
    refine (fold_res_preserve (fun a b => i ∈ dom a.1 -> i ∈ dom b.1) _ _ _ _ _ _ _ Hs Ha);
      [auto|auto|].
    intros b z b' _ Hs' Hb. apply match_step_sub in Hs'. apply elem_of_dom.
    apply elem_of_dom in Hb as [v Hv]. exists v. by eapply lookup_weaken.
Qed.

Lemma run_pass_tbv_empty (f : matcher) (O I : gset pystr) st st' :
  f <> PartialMatch -> st.2 = ∅ -> run_pass iter f O I st = inr st' -> st'.2 = ∅.
Proof.
  intros Hf He H. apply run_pass_rel in H as [_ [H _]].
  apply map_eq. intros k. rewrite lookup_empty. destruct (st'.2 !! k) as [v|] eqn:E; [|done].
  destruct (H k v E) as [E' | [E' _]]; [by rewrite He, lookup_empty in E'|contradiction].
Qed.


(** The three passes of [translate_names], unrolled. *)
Lemma run_passes_three (O I : gset pystr) found tbv O' I' :
  run_passes iter matching_functions O I ∅ ∅ = inr (found, tbv, O', I') ->
  exists st1 st2,
    run_pass iter Match O I (∅, ∅) = inr st1 /\
    run_pass iter Contain (O ∖ map_img st1.1) (I ∖ dom st1.1) (st1.1, st1.2) = inr st2 /\
    run_pass iter PartialMatch (O ∖ map_img st1.1 ∖ map_img st2.1)
      (I ∖ dom st1.1 ∖ dom st2.1) (st2.1, st2.2) = inr (found, tbv).
Proof.
  unfold matching_functions. cbn [run_passes]. cbv [mbind res_bind Ok Err].
  destruct (run_pass iter Match O I (∅, ∅)) as [e|st1] eqn:E1; [discriminate|].
  destruct (run_pass iter Contain _ _ _) as [e|st2] eqn:E2; [discriminate|].
  destruct (run_pass iter PartialMatch _ _ _) as [e|[f3 t3]] eqn:E3; [discriminate|].
  intros H. injection H as -> -> _ _. eauto.
Qed.

(** Every pair recorded by [translate_names] is accepted by one of the
    three matchers: [found] maps a canonical name only to a secondary name
    that matches it exactly, as a subset, or partially. *)
Theorem translate_names_found_matches (other_names intracursus_names : list pystr)
    (found tbv : names_map) (intra other : pystr) :
  translate_names iter other_names intracursus_names = Ok (found, tbv) ->
  found !! intra = Some other ->
  match_ other intra = true \/ contain other intra = true \/ partial_match other intra = true.
Proof.
  intros H Hk. apply (translate_names_ok_inv iter) in H as [_ (O' & I' & H & _)].
  apply run_passes_three in H as (st1 & st2 & H1 & H2 & H3).
  apply run_pass_rel in H1 as [A1 _], H2 as [A2 _], H3 as [A3 _]. simpl in *.
  destruct (A3 _ _ Hk) as [Hk2 | Hp]; [|auto].
  destruct (A2 _ _ Hk2) as [Hk1 | Hc]; [|auto].
  destruct (A1 _ _ Hk1) as [He | Hm]; [by rewrite lookup_empty in He|auto].
Qed.

(** The pairs flagged for verification are pairs of [found] found by the
    partial pass alone: their names share a word of three letters or more,
    but neither matches exactly nor as a subset. *)
Theorem translate_names_to_be_verified (other_names intracursus_names : list pystr)
    (found tbv : names_map) :
  translate_names iter other_names intracursus_names = Ok (found, tbv) ->
  tbv ⊆ found /\
  forall intra other, tbv !! intra = Some other ->
    partial_match other intra = true /\ contain other intra = false /\
    match_ other intra = false.
Proof.
  intros H. apply (translate_names_ok_inv iter) in H as [_ (O' & I' & H & _)].
  apply run_passes_three in H as (st1 & st2 & H1 & H2 & H3).
  assert (E1 : st1.2 = ∅) by (by apply (run_pass_tbv_empty Match _ _ (∅, ∅)) in H1).
  assert (E2 : st2.2 = ∅)
    by (by apply (run_pass_tbv_empty Contain _ _ (st1.1, st1.2)) in H2).
  pose proof (fun o i => run_pass_complete _ _ _ _ _ o i H1) as C1.
  pose proof (fun o i => run_pass_complete _ _ _ _ _ o i H2) as C2.
  apply run_pass_rel in H3 as [_ [B3 C3]]. simpl in *. split.
  - apply C3. rewrite E2. apply map_empty_subseteq.
  - intros intra other Hk. destruct (B3 _ _ Hk) as [He | (_ & Hi & Ho & Hp)].
    { by rewrite E2, lookup_empty in He. }
    split; [exact Hp|]. split.
    + destruct (contain other intra) eqn:Hc; [|done]. exfalso.
      assert (intra ∈ dom st2.1) by (apply (C2 other intra); [set_solver|set_solver|exact Hc]).
      set_solver.
    + destruct (match_ other intra) eqn:Hm; [|done]. exfalso.
      assert (intra ∈ dom st1.1) by (apply (C1 other intra); [set_solver|set_solver|exact Hm]).
      set_solver.
Qed.

End PassProps.

Lemma translate_names_found_matches_witness :
  translate_names elements [u "alkissi durand"] [u "Sabrina Alkissi"]
    = Ok (<[u "Sabrina Alkissi" := u "alkissi durand"]> ∅,
          <[u "Sabrina Alkissi" := u "alkissi durand"]> ∅) /\
  <[u "Sabrina Alkissi" := u "alkissi durand"]> (∅ : names_map) !! u "Sabrina Alkissi"
    = Some (u "alkissi durand") /\
  (match_ (u "alkissi durand") (u "Sabrina Alkissi") = true \/
   contain (u "alkissi durand") (u "Sabrina Alkissi") = true \/
   partial_match (u "alkissi durand") (u "Sabrina Alkissi") = true).
Proof.
  assert (H : translate_names elements [u "alkissi durand"] [u "Sabrina Alkissi"]
    = Ok (<[u "Sabrina Alkissi" := u "alkissi durand"]> ∅,
          <[u "Sabrina Alkissi" := u "alkissi durand"]> ∅)) by (vm_compute; reflexivity).
  assert (Hk : <[u "Sabrina Alkissi" := u "alkissi durand"]> (∅ : names_map)
                 !! u "Sabrina Alkissi" = Some (u "alkissi durand")) by (vm_compute; reflexivity).
  split; [exact H|]. split; [exact Hk|].
  exact (translate_names_found_matches elements (fun s => reflexivity _) _ _ _ _ _ _ H Hk).
Defined.

Lemma translate_names_to_be_verified_witness :
  let m := <[u "Sabrina Alkissi" := u "alkissi durand"]> (∅ : names_map) in
  translate_names elements [u "alkissi durand"] [u "Sabrina Alkissi"] = Ok (m, m) /\
  m ⊆ m /\
  forall intra other, m !! intra = Some other ->
    partial_match other intra = true /\ contain other intra = false /\
    match_ other intra = false.
Proof.
  intros m.
  assert (H : translate_names elements [u "alkissi durand"] [u "Sabrina Alkissi"] = Ok (m, m))
    by (vm_compute; reflexivity).
  split; [exact H|].
  exact (translate_names_to_be_verified elements (fun s => reflexivity _) _ _ _ _ H).
Defined.


(* ------------------------------------------------------------------ *)
(** ** Properties of the secondary-sheet extractor *)

Lemma mapM_ok {A B} (f : A -> res B) (l : list A) (l' : list B) :
  mapM f l = inr l' <-> Forall2 (fun x y => f x = inr y) l l'.
Proof.
  revert l'. induction l as [|x l IH]; intros l'; simpl.
  - split; [intros H; injection H as <-; constructor|intros H; inversion H; reflexivity].
  - cbv [mbind res_bind Ok Err]. destruct (f x) as [e|y] eqn:Ef.
    + split; [discriminate|]. intros H. inversion H; subst. congruence.
    + destruct (mapM f l) as [e|ys] eqn:Em.
      * split; [discriminate|]. intros H. inversion H as [|? ? ? ys' Hy Hys]; subst.
        apply IH in Hys. discriminate.
      * split.
        -- intros H. injection H as <-. constructor; [done|]. by apply IH.
        -- intros H. inversion H as [|? ? ? ys' Hy Hys]; subst.
           apply IH in Hys. injection Hys as ->. congruence.
Qed.

Lemma mapM_error {A B} (f : A -> res B) (l : list A) (e : py_error) :
  mapM f l = inl e -> exists x, x ∈ l /\ f x = inl e.
Proof.
  induction l as [|x l IH]; simpl; [discriminate|]. cbv [mbind res_bind Ok Err].
  destruct (f x) as [e'|y] eqn:Ef.
  - intros H. injection H as ->. exists x. split; [left|done].
  - destruct (mapM f l) as [e'|ys]; [|discriminate]. intros H. injection H as ->.
    destruct IH as (z & Hz & Hfz); [done|]. exists z. split; [by right|done].
Qed.

Lemma mapM_error_elem {A B} (f : A -> res B) (l : list A) (x : A) (e : py_error) :
  x ∈ l -> f x = inl e -> exists e', mapM f l = inl e'.
Proof.
  intros Hx Hf. destruct (mapM f l) as [e'|l'] eqn:E; [by exists e'|].
  apply mapM_ok in E. apply list_elem_of_lookup in Hx as [k Hk].
  destruct (Forall2_lookup_l _ _ _ _ _ E Hk) as (y & _ & Hy). congruence.
Qed.

Lemma intracursus_row_error (row : list cell) (e : py_error) :
  intracursus_row row = inl e <-> e = ValueError /\ (length row < 4)%nat.
Proof.
  destruct row as [|a [|b [|c [|d rest]]]]; simpl;
    (split; [intros H; injection H as <-; split; [done|lia]|intros [-> _]; reflexivity]) ||
    (split; [discriminate|lia]).
Qed.

Lemma foldr_min_le {A} (rows : list (list A)) (m : nat) :
  (foldr (fun r' m => Nat.min (length r') m) m rows <= m)%nat /\
  forall r, r ∈ rows -> (foldr (fun r' m => Nat.min (length r') m) m rows <= length r)%nat.
Proof.
  induction rows as [|r rows [IH1 IH2]]; simpl.
  - split; [lia|]. intros r Hr. by apply elem_of_nil in Hr.
  - split; [lia|]. intros r' Hr'. apply elem_of_cons in Hr' as [-> | Hr']; [lia|].
    specialize (IH2 r' Hr'). lia.
Qed.

Lemma omap_lookup_length {A} (rows : list (list A)) (j : nat) :
  (forall r, r ∈ rows -> (j < length r)%nat) ->
  length (omap (fun r => r !! j) rows) = length rows.
Proof.
  induction rows as [|r rows IH]; intros H; simpl; [done|].
  destruct (r !! j) eqn:E.
  - simpl. f_equal. apply IH. intros r' Hr'. apply H. by right.
  - exfalso. apply lookup_ge_None in E. specialize (H r ltac:(left)). lia.
Qed.

(** Every column of [zip( *rows)] has one cell per row. *)
Lemma zip_star_col_length {A} (rows : list (list A)) (c : list A) :
  c ∈ zip_star rows -> length c = length rows.
Proof.
  destruct rows as [|r rs]; [intros H; by apply elem_of_nil in H|].
  unfold zip_star. cbv zeta. intros Hc. apply list_elem_of_fmap in Hc as (j & -> & Hj).
  apply elem_of_seq in Hj.
  destruct (foldr_min_le (r :: rs) (length r)) as [_ Hle].
  apply (omap_lookup_length (r :: rs)). intros r' Hr'. specialize (Hle r' Hr'). cbn [foldr] in Hle, Hj. lia.
Qed.

(** With rows of one length [m], [zip( *rows)] has [m] columns. *)
Lemma zip_star_length {A} (rows : list (list A)) (m : nat) :
  rows <> [] -> (forall r, r ∈ rows -> length r = m) -> length (zip_star rows) = m.
Proof.
  destruct rows as [|r rs]; [done|]. intros _ H. unfold zip_star.
  rewrite length_map, length_seq.
  assert (Hf : forall rs' : list (list A), (forall r', r' ∈ rs' -> length r' = m) ->
            foldr (fun r' m0 => Nat.min (length r') m0) m rs' = m).
  { induction rs' as [|x rs' IH]; intros Hrs; simpl; [done|].
    rewrite IH by (intros; apply Hrs; by right). rewrite (Hrs x ltac:(left)). lia. }
  rewrite (H r ltac:(left)). apply Hf. exact H.
Qed.

Lemma foldl_inv {A B} (P : A -> Prop) (Q : B -> Prop) (f : A -> B -> A) (l : list B) (a : A) :
  P a -> (forall a x, P a -> Q x -> P (f a x)) -> Forall Q l -> P (foldl f a l).
Proof.
  intros Ha Hf Hl. revert a Ha. induction Hl as [|x l Hx Hl IH]; intros a Ha; simpl; auto.
Qed.

Lemma classify_column_inv (n : nat) (st : list Z * list cell * list (list pystr))
    (column : list cell) :
  (forall z, z ∈ st.1.1 -> 1000000 < z) /\
  (st.1.1 = [] \/ length st.1.1 = n) /\ (st.1.2 = [] \/ length st.1.2 = n) /\
  Forall (fun c => length c = n) st.2 ->
  length column = n ->
  let st' := classify_column st column in
  (forall z, z ∈ st'.1.1 -> 1000000 < z) /\
  (st'.1.1 = [] \/ length st'.1.1 = n) /\ (st'.1.2 = [] \/ length st'.1.2 = n) /\
  Forall (fun c => length c = n) st'.2.
Proof.
  destruct st as [[ids_ scores_] ncs]. simpl. intros (Hz & Hi & Hs & Hn) Hc.
  unfold classify_column.
  destruct (forallb is_id_value column) eqn:E1; [|destruct (forallb is_str column) eqn:E2;
    [|destruct (existsb is_number column)]]; simpl.
  - split; [|split; [right; by rewrite length_map|auto]].
    intros z Hz'. apply list_elem_of_fmap in Hz' as (v & -> & Hv).
    rewrite forallb_forall in E1. apply list_elem_of_In in Hv. specialize (E1 v Hv).
    destruct v; try discriminate. simpl in *. lia.
  - do 3 (split; [auto|]). apply Forall_app. split; [done|]. constructor; [|done].
    by rewrite length_map.
  - auto.
  - auto.
Qed.

(** [get_other_data] raises only [NothingToMergeError], and raises it
    exactly when every cell of the secondary sheet is blank ([str(val)]
    is empty or whitespace). *)
Theorem get_other_data_error (other_sheet : SheetData) (e : py_error) :
  get_other_data other_sheet = Err e <->
  e = NothingToMergeError /\
  forall row val, row ∈ other_sheet -> val ∈ row -> strip_nonempty (py_str val) = false.
Proof.
  unfold get_other_data, find_first_data_row. cbv [mbind res_bind Ok Err].
  destruct (list_find _ other_sheet) as [[i row]|] eqn:E.
  - destruct (foldl _ _ _) as [[? ?] ?]. split; [discriminate|].
    intros [_ Hall]. exfalso. apply list_find_Some in E as (Hi & Hrow & _).
    apply existsb_exists in Hrow as (val & Hv & Hs). apply list_elem_of_In in Hv.
    rewrite (Hall row val) in Hs; [discriminate| |done]. by eapply list_elem_of_lookup_2.
  - apply list_find_None in E. rewrite Forall_forall in E. split.
    + intros H. injection H as <-. split; [done|]. intros row val Hrow Hv.
      destruct (strip_nonempty (py_str val)) eqn:Hs; [|done]. exfalso.
      apply (E row Hrow). apply existsb_exists. exists val. split; [|done].
      by apply list_elem_of_In.
    + intros [-> _]. reflexivity.
Qed.

(** Every identifier extracted from the secondary sheet is an integer
    greater than 1 000 000. *)
Theorem get_other_data_ids_large (other_sheet : SheetData) (d : OtherData) (z : Z) :
  get_other_data other_sheet = Ok d -> z ∈ other_ids d -> 1000000 < z.
Proof.
  unfold get_other_data. cbv [mbind res_bind Ok Err].
  destruct (find_first_data_row other_sheet) as [e|i]; [discriminate|].
  set (n := length (drop i other_sheet)).
  pose proof (foldl_inv (fun st : list Z * list cell * list (list pystr) =>
    (forall z, z ∈ st.1.1 -> 1000000 < z) /\
    (st.1.1 = [] \/ length st.1.1 = n) /\ (st.1.2 = [] \/ length st.1.2 = n) /\
    Forall (fun c => length c = n) st.2) (fun c => length c = n) classify_column
    (zip_star (drop i other_sheet)) ([], [], [])) as Hinv.
  destruct (foldl classify_column ([], [], []) _) as [[ids_ scores_] ncs].
  intros H. injection H as <-. simpl. apply Hinv.
  - simpl. split; [intros ? Hz; by apply elem_of_nil in Hz|auto].
  - intros a x Ha Hx. by apply classify_column_inv.
  - apply Forall_forall. intros c Hc. by apply zip_star_col_length.
Qed.

(** The columns extracted from the secondary sheet line up: each of the
    identifier, score and name lists is either empty or has one entry per
    row from the first data row on. *)
Theorem get_other_data_lengths (other_sheet : SheetData) (d : OtherData) :
  get_other_data other_sheet = Ok d ->
  exists i, find_first_data_row other_sheet = Ok i /\
    let n := length (drop i other_sheet) in
    (other_ids d = [] \/ length (other_ids d) = n) /\
    (other_scores d = [] \/ length (other_scores d) = n) /\
    (other_names d = [] \/ length (other_names d) = n).
Proof.
  unfold get_other_data. cbv [mbind res_bind Ok Err].
  destruct (find_first_data_row other_sheet) as [e|i]; [discriminate|].
  set (n := length (drop i other_sheet)).
  pose proof (foldl_inv (fun st : list Z * list cell * list (list pystr) =>
    (forall z, z ∈ st.1.1 -> 1000000 < z) /\
    (st.1.1 = [] \/ length st.1.1 = n) /\ (st.1.2 = [] \/ length st.1.2 = n) /\
    Forall (fun c => length c = n) st.2) (fun c => length c = n) classify_column
    (zip_star (drop i other_sheet)) ([], [], [])) as Hinv.
  destruct (foldl classify_column ([], [], []) _) as [[ids_ scores_] ncs].
  intros H. injection H as <-. exists i. split; [done|]. simpl.
  destruct Hinv as (_ & Hi & Hs & Hn).
  - simpl. split; [intros ? Hz; by apply elem_of_nil in Hz|auto].
  - intros a x Ha Hx. by apply classify_column_inv.
  - apply Forall_forall. intros c Hc. by apply zip_star_col_length.
  - simpl in *. split; [done|]. split; [done|].
    destruct ncs as [|c ncs]; [by left|]. right. rewrite length_map.
    apply zip_star_length; [done|]. rewrite Forall_forall in Hn. exact Hn.
Qed.

(* ------------------------------------------------------------------ *)
(** ** Properties of the canonical extractor *)

Lemma get_intracursus_data_rows_spec (sheet : SheetData) (d : IntracursusData) :
  get_intracursus_data sheet = Ok d ->
  length (ids d) = length (drop 6 sheet) /\ length (names d) = length (drop 6 sheet) /\
  length (scores d) = length (drop 6 sheet) /\
  forall k row, sheet !! (6 + k)%nat = Some row ->
    exists c0 first_name last_name c3 rest,
      row = c0 :: first_name :: last_name :: c3 :: rest /\
      ids d !! k = Some c0 /\
      names d !! k = Some (py_str first_name ++ u " " ++ py_str last_name) /\
      scores d !! k = Some c3.
Proof.
  unfold get_intracursus_data. cbv [mbind res_bind Ok Err].
  destruct (mapM intracursus_row (drop 6 sheet)) as [e|rows] eqn:E; [discriminate|].
  intros H. assert (Hd : d = mkIntracursusData (map (fun r => r.1.1) rows)
                               (map (fun r => r.1.2) rows) (map (fun r => r.2) rows))
    by (destruct rows; [discriminate|]; injection H as <-; reflexivity).
  subst d. cbn [ids names scores].
  apply mapM_ok in E. apply Forall2_length in E as Hlen. rewrite !length_map, <- Hlen.
  do 3 (split; [reflexivity|]). intros k row Hrow.
  rewrite <- lookup_drop in Hrow.
  destruct (Forall2_lookup_l _ _ _ _ _ E Hrow) as (y & Hy & Hf).
  rewrite !list_lookup_fmap, Hy. simpl.
  destruct row as [|c0 [|fn [|ln [|c3 rest]]]]; try discriminate.
  simpl in Hf. injection Hf as <-. exists c0, fn, ln, c3, rest. auto.
Qed.

(** Row [6 + k] of the canonical sheet gives entry [k] of each list of
    [get_intracursus_data]: the identifier (cell 0), the name "first
    last" (cells 1 and 2) and the score (cell 3); the three lists have
    one entry per row from row 6 on. *)
Theorem get_intracursus_data_rows (sheet : SheetData) (d : IntracursusData) :
  get_intracursus_data sheet = Ok d ->
  length (ids d) = length (drop 6 sheet) /\ length (names d) = length (drop 6 sheet) /\
  length (scores d) = length (drop 6 sheet) /\
  forall k row, sheet !! (6 + k)%nat = Some row ->
    exists c0 first_name last_name c3 rest,
      row = c0 :: first_name :: last_name :: c3 :: rest /\
      ids d !! k = Some c0 /\
      names d !! k = Some (py_str first_name ++ u " " ++ py_str last_name) /\
      scores d !! k = Some c3.
Proof. apply get_intracursus_data_rows_spec. Qed.

(** [get_intracursus_data] raises [ValueError] exactly when a row from
    row 6 on has fewer than four cells, [TypeError] exactly when the sheet
    has no row after the six leading ones, and nothing else. *)
Theorem get_intracursus_data_errors (sheet : SheetData) (e : py_error) :
  get_intracursus_data sheet = Err e <->
  (e = ValueError /\ exists row, row ∈ drop 6 sheet /\ (length row < 4)%nat) \/
  (e = TypeError /\ (length sheet <= 6)%nat).
Proof.
  unfold get_intracursus_data. cbv [mbind res_bind Ok Err].
  destruct (mapM intracursus_row (drop 6 sheet)) as [e'|rows] eqn:E.
  - apply mapM_error in E as Hx. destruct Hx as (row & Hrow & Hr).
    apply intracursus_row_error in Hr as [-> Hshort]. split.
    + intros H. injection H as <-. left. split; [done|]. by exists row.
    + intros [[-> _] | [-> Hle]]; [done|]. exfalso.
      rewrite drop_ge in Hrow by exact Hle. by apply elem_of_nil in Hrow.
  - apply mapM_ok in E. destruct rows as [|r rs].
    + apply Forall2_nil_inv_r in E. split.
      * intros H. injection H as <-. right. split; [done|].
        apply (f_equal length) in E as El. rewrite length_drop in El. simpl in El. lia.
      * intros [[-> (row & Hrow & _)] | [-> _]]; [|done].
        rewrite E in Hrow. by apply elem_of_nil in Hrow.
    + split; [discriminate|]. intros [[-> (row & Hrow & Hs)] | [-> Hle]].
      * apply list_elem_of_lookup in Hrow as [k Hk].
        destruct (Forall2_lookup_l _ _ _ _ _ E Hk) as (y & _ & Hf).
        destruct row as [|? [|? [|? [|? ?]]]]; simpl in Hs, Hf; try discriminate; lia.
      * rewrite drop_ge in E by exact Hle. inversion E.
Qed.

(* ------------------------------------------------------------------ *)
(** ** Properties of the merge *)

(** [dict(pairs)[k]] is the value of the last pair with key [k]. *)
Lemma dict_of_lookup `{Countable K} {V} (l : list (K * V)) (k : K) (v : V) :
  dict_of l !! k = Some v ->
  exists j, l !! j = Some (k, v) /\
    forall j' p, (j < j')%nat -> l !! j' = Some p -> p.1 <> k.
Proof.
  unfold dict_of. induction l as [|x l IH] using rev_ind; simpl.
  - by rewrite lookup_empty.
  - rewrite foldl_app. simpl. rewrite lookup_insert. case_decide as Hk.
    + intros Hv. injection Hv as <-. subst k. exists (length l). split.
      * rewrite lookup_app_r by lia. rewrite Nat.sub_diag. by destruct x.
      * intros j' p Hj Hp. apply lookup_lt_Some in Hp. rewrite length_app in Hp. simpl in Hp. lia.
    + intros Hv. destruct (IH Hv) as (j & Hj & Hlast). exists j. split.
      * rewrite lookup_app_l; [exact Hj|]. by eapply lookup_lt_Some.
      * intros j' p Hjj Hp. destruct (decide (j' < length l)%nat).
        -- rewrite lookup_app_l in Hp by lia. by apply (Hlast j').
        -- rewrite lookup_app_r in Hp by lia.
           destruct (j' - length l)%nat as [|m] eqn:Hm; simpl in Hp.
           ++ injection Hp as <-. intros Hx. apply Hk. by rewrite Hx.
           ++ by rewrite lookup_nil in Hp.
Qed.

Lemma dict_of_zip_lookup `{Countable K} {V} (ks : list K) (vs : list V) (k : K) (v : V) :
  dict_of (zip ks vs) !! k = Some v ->
  exists j, ks !! j = Some k /\ vs !! j = Some v /\
    forall j', (j < j')%nat -> ks !! j' = Some k -> vs !! j' = None.
Proof.
  intros Hd. destruct (dict_of_lookup _ _ _ Hd) as (j & Hj & Hlast).
  apply lookup_zip_Some in Hj as [Hk Hv]. exists j. do 2 (split; [done|]).
  intros j' Hjj Hk'. destruct (vs !! j') as [w|] eqn:Hw; [|done]. exfalso.
  apply (Hlast j' (k, w)); [done| |done]. by apply lookup_zip_Some.
Qed.

Lemma lookup_or_keyerror_error `{Countable K} {V} (m : gmap K V) (k : K) (e : py_error) :
  lookup_or_keyerror m k = Err e -> e = KeyError.
Proof. unfold lookup_or_keyerror. destruct (m !! k); [discriminate|]. by intros [= <-]. Qed.

Section MergeProps.
Variable iter : gset pystr -> list pystr.

(** On the identifier path, the canonical identifiers and names are kept,
    nothing is flagged, and each canonical identifier (an integer, or a
    float equal to an integer) gets the score paired with the last
    occurrence of that integer among the secondary identifiers. *)
Theorem update_by_ids_scores (intracursus_data : IntracursusData) (other_data : OtherData)
    (d : IntracursusData) (to_be_verified : names_map) :
  other_ids other_data <> [] ->
  update_intracursus_data iter intracursus_data other_data = Ok (d, to_be_verified) ->
  ids d = ids intracursus_data /\ names d = names intracursus_data /\
  to_be_verified = ∅ /\
  Forall2 (fun id_ score => exists z j,
             int_key id_ = Some z /\ other_ids other_data !! j = Some z /\
             other_scores other_data !! j = Some score /\
             forall j', (j < j')%nat -> other_ids other_data !! j' = Some z ->
                        other_scores other_data !! j' = None)
          (ids intracursus_data) (scores d).
Proof.
  intros Hne. unfold update_intracursus_data.
  destruct (other_ids other_data) as [|z0 zs] eqn:Hids; [done|].
  rewrite <- Hids. cbv [mbind res_bind Ok Err].
  destruct (mapM _ (ids intracursus_data)) as [e|new] eqn:E; [discriminate|].
  intros H. injection H as <- <-. cbn [ids names scores].
  do 3 (split; [reflexivity|]). apply mapM_ok in E. eapply Forall2_impl; [exact E|].
  intros c s Hc. cbv beta in Hc. destruct (int_key c) as [z|] eqn:Hk; [|discriminate].
  unfold lookup_or_keyerror in Hc. destruct (dict_of _ !! z) eqn:Hz; [|discriminate].
  injection Hc as <-. apply dict_of_zip_lookup in Hz as (j & Hj & Hs & Hlast).
  exists z, j. auto.
Qed.

Lemma update_by_names_spec (intracursus_data : IntracursusData) (other_data : OtherData)
    (d : IntracursusData) (to_be_verified : names_map) :
  other_ids other_data = [] ->
  update_intracursus_data iter intracursus_data other_data = Ok (d, to_be_verified) ->
  exists found,
    translate_names iter (other_names other_data) (names intracursus_data)
      = Ok (found, to_be_verified) /\
    ids d = ids intracursus_data /\ names d = names intracursus_data /\
    Forall2 (fun name score =>
               match found !! name with
               | None => score = ABI
               | Some other => exists j, other_names other_data !! j = Some other /\
                                         other_scores other_data !! j = Some score
               end)
            (names intracursus_data) (scores d).
Proof.
  intros Hids. unfold update_intracursus_data. rewrite Hids. cbv [mbind res_bind Ok Err].
  destruct (translate_names iter _ _) as [e|[found tbv]] eqn:Et; [discriminate|].
  destruct (mapM _ (names intracursus_data)) as [e|new] eqn:E; [discriminate|].
  intros H. injection H as <- <-. exists found. cbn [ids names scores].
  do 3 (split; [reflexivity|]). apply mapM_ok in E. eapply Forall2_impl; [exact E|].
  intros name s Hs. unfold lookup_or_keyerror in Hs.
  destruct (found !! name) as [o|] eqn:Hf.
  - rewrite lookup_insert_ne in Hs by discriminate.
    destruct (dict_of _ !! Some o) eqn:Ho; [|discriminate]. injection Hs as <-.
    apply dict_of_zip_lookup in Ho as (j & Hj & Hsc & _).
    rewrite list_lookup_fmap in Hj. apply fmap_Some in Hj as (o' & Ho' & [= <-]).
    by exists j.
  - rewrite lookup_insert_eq in Hs. by injection Hs as <-.
Qed.

(** On the name path, the canonical names are reconciled with
    [translate_names]; a canonical name left unmatched gets "ABI", and a
    matched one gets the score on the row of its secondary name. *)
Theorem update_by_names_scores (intracursus_data : IntracursusData) (other_data : OtherData)
    (d : IntracursusData) (to_be_verified : names_map) :
  other_ids other_data = [] ->
  update_intracursus_data iter intracursus_data other_data = Ok (d, to_be_verified) ->
  exists found,
    translate_names iter (other_names other_data) (names intracursus_data)
      = Ok (found, to_be_verified) /\
    ids d = ids intracursus_data /\ names d = names intracursus_data /\
    Forall2 (fun name score =>
               match found !! name with
               | None => score = ABI
               | Some other => exists j, other_names other_data !! j = Some other /\
                                         other_scores other_data !! j = Some score
               end)
            (names intracursus_data) (scores d).
Proof. apply update_by_names_spec. Qed.

(** On the name path, a canonical name matched with a secondary name that
    has no score next to it (for instance when the secondary sheet has no
    numeric column) makes the merge raise [KeyError]. *)
Theorem update_by_names_missing_score (intracursus_data : IntracursusData)
    (other_data : OtherData) (found to_be_verified : names_map) (name other : pystr) :
  other_ids other_data = [] ->
  translate_names iter (other_names other_data) (names intracursus_data)
    = Ok (found, to_be_verified) ->
  name ∈ names intracursus_data -> found !! name = Some other ->
  (forall j, other_names other_data !! j = Some other -> other_scores other_data !! j = None) ->
  update_intracursus_data iter intracursus_data other_data = Err KeyError.
Proof.
  intros Hids Ht Hn Hf Hnone. unfold update_intracursus_data. rewrite Hids, Ht.
  cbv [mbind res_bind Ok Err].
  set (g := fun name0 => lookup_or_keyerror
              (<[None:=ABI]> (dict_of (zip (map Some (other_names other_data))
                                            (other_scores other_data)))) (found !! name0)).
  assert (Hg : g name = Err KeyError).
  { unfold g, lookup_or_keyerror. rewrite Hf, lookup_insert_ne by discriminate.
    destruct (dict_of _ !! Some other) as [s|] eqn:Ho; [|reflexivity]. exfalso.
    apply dict_of_zip_lookup in Ho as (j & Hj & Hsc & _).
    rewrite list_lookup_fmap in Hj. apply fmap_Some in Hj as (o' & Ho' & [= <-]).
    rewrite (Hnone j Ho') in Hsc. discriminate. }
  destruct (mapM_error_elem g _ _ _ Hn Hg) as [e He]. fold g. rewrite He.
  apply mapM_error in He as (x & _ & Hx). unfold g in Hx.
  apply lookup_or_keyerror_error in Hx. by subst.
Qed.

End MergeProps.

(* ------------------------------------------------------------------ *)
(** ** Properties of the write-back *)

(** One iteration, seen from the score cell: row [i] exists, its cell 0
    exists, the other rows are untouched, and cell 3 of the new row is the
    score (with a "#..." text score replaced by "ABI"), unless cell 0 is
    the empty string and that score is "ABI". *)
Lemma fill_row_score (sheet : SheetData) (tbv : names_map) (i : nat) (score : cell) sheet1 :
  fill_row sheet tbv i score = inr sheet1 ->
  exists row c0 row',
    sheet !! i = Some row /\ row !! 0%nat = Some c0 /\ sheet1 !! i = Some row' /\
    length sheet1 = length sheet /\ (forall j, j <> i -> sheet1 !! j = sheet !! j) /\
    ((3 < length row)%nat ->
     let score' := match score with
                   | CStr s => if startswith s (u "#") then ABI else score
                   | _ => score
                   end in
     row' !! 3%nat = if cell_eqb c0 (CStr []) && cell_eqb score' ABI
                     then row !! 3%nat else Some score').
Proof.
  unfold fill_row, list_get, list_set.
  destruct (sheet !! i) as [row|] eqn:Hrow; cbv [mbind res_bind Ok Err]; [|intros ?; discriminate].
  destruct (row !! 0%nat) as [c0|] eqn:Hc0; cbv [mbind res_bind Ok Err]; [|intros ?; discriminate].
  set (score' := match score with
                 | CStr s => if startswith s (u "#") then ABI else score
                 | _ => score
                 end).
  intros H.
  assert (Hfin : forall row_x, length row_x = length row ->
    drop 1 (take 3 row_x) = drop 1 (take 3 row_x) ->
    (row_x' ← (match drop 1 (take 3 row_x) with
               | [a; b] => Ok (a, b)
               | _ => Err ValueError
               end);
     let '(first_name, last_name) := row_x' in
     if decide (i < length sheet)%nat
     then inr (<[i := match tbv !! (py_str first_name ++ u " " ++ py_str last_name) with
                      | Some other => row_x ++ [CStr (other ++ u " ?")]
                      | None => row_x
                      end]> sheet)
     else inl IndexError) = inr sheet1 ->
    exists row', sheet1 !! i = Some row' /\ length sheet1 = length sheet /\
      (forall j, j <> i -> sheet1 !! j = sheet !! j) /\
      ((3 < length row)%nat -> row' !! 3%nat = row_x !! 3%nat)).
  { intros row_x Hlen _. cbv [mbind res_bind Ok Err].
    destruct (drop 1 (take 3 row_x)) as [|a [|b [|? ?]]]; intros Hs; try discriminate.
    destruct (decide (i < length sheet)%nat) as [Hi|Hi]; [|discriminate].
    injection Hs as <-. eexists. split; [by apply list_lookup_insert_eq|].
    split; [apply length_insert|]. split; [intros j Hj; by apply list_lookup_insert_ne|].
    intros H3. destruct (tbv !! _); [|reflexivity]. apply lookup_app_l. lia. }
  destruct (cell_eqb c0 (CStr []) && cell_eqb score' ABI) eqn:Hg; cbn [negb] in H.
  - cbv [mbind res_bind Ok Err] in H.
    destruct (Hfin row eq_refl eq_refl H) as (row' & H1 & H2 & H3 & H4).
    exists row, c0, row'. do 5 (split; [done|]). intros H3'. cbv zeta. fold score'. rewrite Hg. by apply H4.
  - destruct (decide (3 < length row)%nat) as [Hl|Hl]; cbv [mbind res_bind Ok Err] in H;
      [|discriminate].
    destruct (Hfin (<[3%nat := score']> row) (length_insert _ _ _) eq_refl H)
      as (row' & H1 & H2 & H3 & H4).
    exists row, c0, row'. do 5 (split; [done|]). intros H3'. cbv zeta. fold score'. rewrite Hg, H4 by done.
    by apply list_lookup_insert_eq.
Qed.

Lemma fill_scores_loop_frame (sheet : SheetData) (tbv : names_map) (i0 : nat)
    (scores_ : list cell) (sheet' : SheetData) :
  fill_scores_loop sheet tbv i0 scores_ = Ok sheet' ->
  length sheet' = length sheet /\ forall i, (i < i0)%nat -> sheet' !! i = sheet !! i.
Proof.
  revert sheet i0. induction scores_ as [|score rest IH]; intros sheet i0 H.
  - cbv [fill_scores_loop Ok] in H. injection H as <-. auto.
  - cbn [fill_scores_loop] in H.
    destruct (fill_row sheet tbv i0 score) as [e | sheet1] eqn:E;
      cbv [mbind res_bind] in H; [discriminate|].
    apply fill_row_score in E as (row & c0 & row' & _ & _ & _ & Hlen & Hj & _).
    apply IH in H as [Hl Hf]. split; [congruence|].
    intros i Hi. rewrite Hf by lia. apply Hj. lia.
Qed.

Lemma fill_scores_loop_score_spec (sheet : SheetData) (tbv : names_map) (i0 : nat)
    (scores_ : list cell) (sheet' : SheetData) (k : nat) (score : cell) (row : list cell) :
  fill_scores_loop sheet tbv i0 scores_ = Ok sheet' ->
  scores_ !! k = Some score -> sheet !! (i0 + k)%nat = Some row -> (3 < length row)%nat ->
  exists c0 row',
    row !! 0%nat = Some c0 /\ sheet' !! (i0 + k)%nat = Some row' /\
    let score' := match score with
                  | CStr s => if startswith s (u "#") then ABI else score
                  | _ => score
                  end in
    row' !! 3%nat = if cell_eqb c0 (CStr []) && cell_eqb score' ABI
                    then row !! 3%nat else Some score'.
Proof.
  revert sheet i0 k. induction scores_ as [|sc rest IH]; intros sheet i0 k H Hk Hrow Hlen.
  - by rewrite lookup_nil in Hk.
  - cbn [fill_scores_loop] in H.
    destruct (fill_row sheet tbv i0 sc) as [e | sheet1] eqn:E;
      cbv [mbind res_bind] in H; [discriminate|].
    apply fill_row_score in E as (row0 & c0 & row' & Hr0 & Hc0 & Hr' & _ & Hj & Hcell).
    destruct k as [|k].
    + simpl in Hk. injection Hk as ->. rewrite Nat.add_0_r in Hrow |- *.
      rewrite Hrow in Hr0. injection Hr0 as <-.
      exists c0, row'. split; [done|]. split; [|by apply Hcell].
      apply fill_scores_loop_frame in H as [_ Hf]. rewrite Hf by lia. exact Hr'.
    + simpl in Hk. replace (i0 + S k)%nat with (S i0 + k)%nat in * by lia.
      apply (IH sheet1 (S i0) k H Hk); [|exact Hlen].
      rewrite Hj by lia. exact Hrow.
Qed.

(** The write-back loop, seen from the score cell of each row of its
    range (a row of four cells or more): the cell receives the score,
    with a text score starting with "#" replaced by "ABI", except when
    the identifier cell (cell 0) is the empty string and that score is
    "ABI", in which case the cell keeps its value. *)
Theorem fill_scores_loop_score_cell (sheet : SheetData) (to_be_verified : names_map)
    (i0 : nat) (scores_ : list cell) (sheet' : SheetData) (k : nat) (score : cell)
    (row : list cell) :
  fill_scores_loop sheet to_be_verified i0 scores_ = Ok sheet' ->
  scores_ !! k = Some score -> sheet !! (i0 + k)%nat = Some row -> (3 < length row)%nat ->
  exists c0 row',
    row !! 0%nat = Some c0 /\ sheet' !! (i0 + k)%nat = Some row' /\
    let score' := match score with
                  | CStr s => if startswith s (u "#") then ABI else score
                  | _ => score
                  end in
    row' !! 3%nat = if cell_eqb c0 (CStr []) && cell_eqb score' ABI
                    then row !! 3%nat else Some score'.
Proof. apply fill_scores_loop_score_spec. Qed.

Lemma fill_scores_frame (iter : gset pystr -> list pystr)
    (intracursus_sheet other_sheet sheet' : SheetData) :
  fill_scores iter intracursus_sheet other_sheet = Ok sheet' ->
  length sheet' = length intracursus_sheet /\
  forall i, (i < 6)%nat -> sheet' !! i = intracursus_sheet !! i.
Proof.
  unfold fill_scores. cbv [mbind res_bind Ok Err].
  destruct (get_intracursus_data intracursus_sheet) as [e|idata]; [discriminate|].
  destruct (get_other_data other_sheet) as [e|od]; [discriminate|].
  destruct (update_intracursus_data iter idata od) as [e|[d tbv]]; [discriminate|].
  apply fill_scores_loop_frame.
Qed.

(** [fill_scores] keeps the number of rows of the canonical sheet and
    its six leading rows (title, instructions and column headers). *)
Theorem fill_scores_keeps_header (iter : gset pystr -> list pystr)
    (intracursus_sheet other_sheet sheet' : SheetData) :
  fill_scores iter intracursus_sheet other_sheet = Ok sheet' ->
  length sheet' = length intracursus_sheet /\
  forall i, (i < 6)%nat -> sheet' !! i = intracursus_sheet !! i.
Proof. apply fill_scores_frame. Qed.

(** Name path of [fill_scores], for a canonical row whose name
    "first last" is left unmatched by [translate_names]: its score cell
    becomes "ABI" when its identifier cell is not the empty string, and
    keeps its value when it is. *)
Theorem fill_scores_unmatched_row (iter : gset pystr -> list pystr)
    (intracursus_sheet other_sheet sheet' : SheetData) (other_data : OtherData)
    (intracursus_data : IntracursusData) (found to_be_verified : names_map) (k : nat)
    (c0 first_name last_name c3 : cell) (rest : list cell) :
  fill_scores iter intracursus_sheet other_sheet = Ok sheet' ->
  get_intracursus_data intracursus_sheet = Ok intracursus_data ->
  get_other_data other_sheet = Ok other_data -> other_ids other_data = [] ->
  translate_names iter (other_names other_data) (names intracursus_data)
    = Ok (found, to_be_verified) ->
  intracursus_sheet !! (6 + k)%nat = Some (c0 :: first_name :: last_name :: c3 :: rest) ->
  found !! (py_str first_name ++ u " " ++ py_str last_name) = None ->
  exists row', sheet' !! (6 + k)%nat = Some row' /\
    row' !! 3%nat = Some (if cell_eqb c0 (CStr []) then c3 else ABI).
Proof.
  intros Hfs Hid Hod Hids Ht Hrow Hnf.
  unfold fill_scores in Hfs. rewrite Hid, Hod in Hfs. cbv [mbind res_bind Ok Err] in Hfs.
  destruct (update_intracursus_data iter intracursus_data other_data) as [e|[d tbv']] eqn:Eu;
    [discriminate|].
  apply (update_by_names_spec iter) in Eu as (found' & Ht' & _ & _ & HF); [|exact Hids].
  rewrite Ht in Ht'. injection Ht' as <- <-.
  destruct (get_intracursus_data_rows_spec _ _ Hid) as (_ & _ & _ & Hk).
  destruct (Hk k _ Hrow) as (c0' & fn' & ln' & c3' & rest' & Heq & _ & Hn & _).
  injection Heq as <- <- <- <- <-.
  destruct (Forall2_lookup_l _ _ _ _ _ HF Hn) as (s & Hs & Hsf). rewrite Hnf in Hsf. subst s.
  destruct (fill_scores_loop_score_spec _ _ _ _ _ _ _ _ Hfs Hs Hrow ltac:(simpl; lia))
    as (c0' & row' & Hc0 & Hr' & Hcell).
  simpl in Hc0. injection Hc0 as <-. exists row'. split; [exact Hr'|].
  cbv zeta in Hcell. simpl in Hcell. rewrite Hcell. by destruct (cell_eqb c0 (CStr [])).
Qed.

(* ------------------------------------------------------------------ *)
(** ** Witnesses *)

Lemma get_other_data_error_witness :
  get_other_data [[CStr (u " ")]; []] = Err NothingToMergeError.
Proof.
  apply (proj2 (get_other_data_error _ _)). split; [reflexivity|].
  intros row val Hrow Hval. apply elem_of_cons in Hrow as [-> | Hrow].
  - apply elem_of_cons in Hval as [-> | Hval]; [reflexivity|by apply elem_of_nil in Hval].
  - apply elem_of_cons in Hrow as [-> | Hrow]; [by apply elem_of_nil in Hval|].
    by apply elem_of_nil in Hrow.
Defined.

Lemma get_other_data_ids_large_witness :
  get_other_data other_by_id = Ok (mkOtherData [2000001] [] [CFloat (u "15.5")]) /\
  1000000 < 2000001.
Proof.
  assert (H : get_other_data other_by_id = Ok (mkOtherData [2000001] [] [CFloat (u "15.5")]))
    by (vm_compute; reflexivity).
  split; [exact H|].
  apply (get_other_data_ids_large _ _ 2000001 H). cbn [other_ids]. left.
Defined.

Lemma get_other_data_lengths_witness :
  let sheet := [[CStr (u "Nom"); CStr (u "Prenom"); CStr (u "Note")];
                [CStr (u "Curie"); CStr (u "Marie"); CFloat (u "15.5")];
                [CStr (u "Dupont"); CStr (u "Jean"); CInt 12]] in
  let d := mkOtherData [] [u "Curie Marie"; u "Dupont Jean"] [CFloat (u "15.5"); CInt 12] in
  get_other_data sheet = Ok d /\
  exists i, find_first_data_row sheet = Ok i /\
    let n := length (drop i sheet) in
    (other_ids d = [] \/ length (other_ids d) = n) /\
    (other_scores d = [] \/ length (other_scores d) = n) /\
    (other_names d = [] \/ length (other_names d) = n).
Proof.
  intros sheet d. assert (H : get_other_data sheet = Ok d) by (vm_compute; reflexivity).
  split; [exact H|]. exact (get_other_data_lengths _ _ H).
Defined.

Lemma get_intracursus_data_rows_witness :
  let d := mkIntracursusData [CInt 1; CInt 2; CStr []]
             [u "Jean Dupont"; u "Marie Curie"; u "Paul Martin"]
             [CFloat (u "12.0"); CStr []; CFloat (u "9.0")] in
  get_intracursus_data sheet_recorded = Ok d /\
  length (ids d) = length (drop 6 sheet_recorded) /\
  length (names d) = length (drop 6 sheet_recorded) /\
  length (scores d) = length (drop 6 sheet_recorded) /\
  forall k row, sheet_recorded !! (6 + k)%nat = Some row ->
    exists c0 first_name last_name c3 rest,
      row = c0 :: first_name :: last_name :: c3 :: rest /\
      ids d !! k = Some c0 /\
      names d !! k = Some (py_str first_name ++ u " " ++ py_str last_name) /\
      scores d !! k = Some c3.
Proof.
  intros d. assert (H : get_intracursus_data sheet_recorded = Ok d) by (vm_compute; reflexivity).
  split; [exact H|]. exact (get_intracursus_data_rows _ _ H).
Defined.

Lemma get_intracursus_data_errors_witness :
  get_intracursus_data (header ++ [[CInt 1; CStr (u "Jean")]]) = Err ValueError /\
  get_intracursus_data header = Err TypeError.
Proof.
  split.
  - apply (proj2 (get_intracursus_data_errors _ _)). left. split; [reflexivity|].
    exists [CInt 1; CStr (u "Jean")]. split; [|simpl; lia].
    vm_compute. left.
  - apply (proj2 (get_intracursus_data_errors _ _)). right. split; [reflexivity|].
    vm_compute. lia.
Defined.

Lemma update_by_ids_scores_witness :
  let idata := mkIntracursusData [CInt 2000001; CFloat (u "2000002.0")]
                 [u "Jean Dupont"; u "Marie Curie"] [CStr []; CStr []] in
  let od := mkOtherData [2000002; 2000001] [] [CFloat (u "12.0"); CFloat (u "15.5")] in
  let d := mkIntracursusData [CInt 2000001; CFloat (u "2000002.0")]
             [u "Jean Dupont"; u "Marie Curie"] [CFloat (u "15.5"); CFloat (u "12.0")] in
  update_intracursus_data elements idata od = Ok (d, ∅) /\
  ids d = ids idata /\ names d = names idata /\ (∅ : names_map) = ∅ /\
  Forall2 (fun id_ score => exists z j,
             int_key id_ = Some z /\ other_ids od !! j = Some z /\
             other_scores od !! j = Some score /\
             forall j', (j < j')%nat -> other_ids od !! j' = Some z ->
                        other_scores od !! j' = None)
          (ids idata) (scores d).
Proof.
  intros idata od d.
  assert (H : update_intracursus_data elements idata od = Ok (d, ∅)) by (vm_compute; reflexivity).
  split; [exact H|]. apply (update_by_ids_scores elements idata od d ∅); [discriminate|exact H].
Defined.

Lemma update_by_names_scores_witness :
  let idata := mkIntracursusData [CInt 1; CInt 2; CStr []]
             [u "Jean Dupont"; u "Marie Curie"; u "Paul Martin"]
             [CFloat (u "12.0"); CStr []; CFloat (u "9.0")] in
  let od := mkOtherData [] [u "Marie Curie"] [CFloat (u "15.5")] in
  let d := mkIntracursusData [CInt 1; CInt 2; CStr []]
             [u "Jean Dupont"; u "Marie Curie"; u "Paul Martin"]
             [ABI; CFloat (u "15.5"); ABI] in
  update_intracursus_data elements idata od = Ok (d, ∅) /\
  exists found,
    translate_names elements (other_names od) (names idata) = Ok (found, ∅) /\
    ids d = ids idata /\ names d = names idata /\
    Forall2 (fun name score =>
               match found !! name with
               | None => score = ABI
               | Some other => exists j, other_names od !! j = Some other /\
                                         other_scores od !! j = Some score
               end)
            (names idata) (scores d).
Proof.
  intros idata od d.
  assert (H : update_intracursus_data elements idata od = Ok (d, ∅)) by (vm_compute; reflexivity).
  split; [exact H|]. apply (update_by_names_scores elements idata od d ∅); [reflexivity|exact H].
Defined.

Lemma update_by_names_missing_score_witness :
  let idata := mkIntracursusData [CInt 1] [u "Marie Curie"] [CStr []] in
  let od := mkOtherData [] [u "Marie Curie"] [] in
  update_intracursus_data elements idata od = Err KeyError.
Proof.
  intros idata od.
  apply (update_by_names_missing_score elements idata od
           (<[u "Marie Curie" := u "Marie Curie"]> ∅) ∅ (u "Marie Curie") (u "Marie Curie")).
  - reflexivity.
  - vm_compute. reflexivity.
  - vm_compute. left.
  - vm_compute. reflexivity.
  - intros j _. cbn [other_scores]. apply lookup_nil.
Defined.

Lemma fill_scores_loop_score_cell_witness :
  let sheet := header ++ [[CInt 1; CStr (u "Jean"); CStr (u "Dupont"); CFloat (u "12.0")]] in
  let sheet' := header ++ [[CInt 1; CStr (u "Jean"); CStr (u "Dupont"); ABI]] in
  fill_scores_loop sheet ∅ 6 [CStr (u "#N/A")] = Ok sheet' /\
  exists c0 row',
    [CInt 1; CStr (u "Jean"); CStr (u "Dupont"); CFloat (u "12.0")] !! 0%nat = Some c0 /\
    sheet' !! (6 + 0)%nat = Some row' /\
    let score' := match CStr (u "#N/A") with
                  | CStr s => if startswith s (u "#") then ABI else CStr (u "#N/A")
                  | _ => CStr (u "#N/A")
                  end in
    row' !! 3%nat = if cell_eqb c0 (CStr []) && cell_eqb score' ABI
                    then [CInt 1; CStr (u "Jean"); CStr (u "Dupont"); CFloat (u "12.0")] !! 3%nat
                    else Some score'.
Proof.
  intros sheet sheet'.
  assert (H : fill_scores_loop sheet ∅ 6 [CStr (u "#N/A")] = Ok sheet') by (vm_compute; reflexivity).
  split; [exact H|].
  apply (fill_scores_loop_score_cell sheet ∅ 6 [CStr (u "#N/A")] sheet' 0 (CStr (u "#N/A"))).
  - exact H.
  - reflexivity.
  - vm_compute. reflexivity.
  - simpl. lia.
Defined.

Lemma fill_scores_keeps_header_witness :
  let sheet' := header ++ [[CInt 1; CStr (u "Jean"); CStr (u "Dupont"); ABI];
                           [CInt 2; CStr (u "Marie"); CStr (u "Curie"); CFloat (u "15.5")];
                           [CStr []; CStr (u "Paul"); CStr (u "Martin"); CFloat (u "9.0")]] in
  fill_scores elements sheet_recorded other_recorded = Ok sheet' /\
  length sheet' = length sheet_recorded /\
  forall i, (i < 6)%nat -> sheet' !! i = sheet_recorded !! i.
Proof.
  intros sheet'.
  assert (H : fill_scores elements sheet_recorded other_recorded = Ok sheet')
    by (vm_compute; reflexivity).
  split; [exact H|]. exact (fill_scores_keeps_header elements _ _ _ H).
Defined.

Lemma fill_scores_unmatched_row_witness :
  exists row',
    (header ++ [[CInt 1; CStr (u "Jean"); CStr (u "Dupont"); ABI];
                [CInt 2; CStr (u "Marie"); CStr (u "Curie"); CFloat (u "15.5")];
                [CStr []; CStr (u "Paul"); CStr (u "Martin"); CFloat (u "9.0")]]) !! (6 + 0)%nat
      = Some row' /\
    row' !! 3%nat = Some (if cell_eqb (CInt 1) (CStr []) then CFloat (u "12.0") else ABI).
Proof.
  apply (fill_scores_unmatched_row elements sheet_recorded other_recorded _
           (mkOtherData [] [u "Marie Curie"] [CFloat (u "15.5")])
           (mkIntracursusData [CInt 1; CInt 2; CStr []]
              [u "Jean Dupont"; u "Marie Curie"; u "Paul Martin"]
              [CFloat (u "12.0"); CStr []; CFloat (u "9.0")])
           (<[u "Marie Curie" := u "Marie Curie"]> ∅) ∅ 0 (CInt 1) (CStr (u "Jean"))
           (CStr (u "Dupont")) (CFloat (u "12.0")) []).
  - vm_compute. reflexivity.
  - vm_compute. reflexivity.
  - vm_compute. reflexivity.
  - reflexivity.
  - vm_compute. reflexivity.
  - vm_compute. reflexivity.
  - vm_compute. reflexivity.
Defined.

(* ------------------------------------------------------------------ *)
(** ** Properties of the entry point *)

Lemma seems_an_intracursus_file_prefix (sheet sheet' : SheetData) :
  (forall i, (i < 6)%nat -> sheet' !! i = sheet !! i) ->
  seems_an_intracursus_file sheet' = seems_an_intracursus_file sheet.
Proof.
  intros H. unfold seems_an_intracursus_file, list_get at 1 3 5 7.
  rewrite !H by lia. reflexivity.
Qed.

(** [import_scores] merges only a workbook of exactly two sheets whose
    first sheet is recognised as an Intracursus file, and the sheet it
    saves has the same number of rows and is still recognised as one. *)
Theorem import_sheets_output_recognised (iter : gset pystr -> list pystr)
    (all_data : list SheetData) (sheet' : SheetData) :
  import_sheets iter all_data = inr sheet' ->
  exists first second,
    all_data = [first; second] /\
    seems_an_intracursus_file first = Ok true /\
    fill_scores iter first second = Ok sheet' /\
    length sheet' = length first /\
    seems_an_intracursus_file sheet' = Ok true.
Proof.
  unfold import_sheets.
  destruct all_data as [|first [|second [|third rest]]]; try discriminate.
  destruct (seems_an_intracursus_file first) as [e|[|]] eqn:Hs; try discriminate.
  destruct (fill_scores iter first second) as [e|out] eqn:Hf; [discriminate|].
  intros [= <-]. exists first, second. do 3 (split; [done|]).
  apply fill_scores_frame in Hf as [Hl Hpre]. split; [done|].
  rewrite (seems_an_intracursus_file_prefix first out Hpre). exact Hs.
Qed.

Lemma import_sheets_output_recognised_witness :
  let second := [[CStr (u "Nom"); CStr (u "Note")]; [CStr (u "Jean Dupont"); CFloat (u "15.5")]] in
  let out := take 6 intracursus_sample ++
             [[CInt 1; CStr (u "Jean"); CStr (u "Dupont"); CFloat (u "15.5")]] in
  import_sheets elements [intracursus_sample; second] = inr out /\
  exists first second',
    [intracursus_sample; second] = [first; second'] /\
    seems_an_intracursus_file first = Ok true /\
    fill_scores elements first second' = Ok out /\
    length out = length first /\
    seems_an_intracursus_file out = Ok true.
Proof.
  intros second out.
  assert (H : import_sheets elements [intracursus_sample; second] = inr out)
    by (vm_compute; reflexivity).
  split; [exact H|]. exact (import_sheets_output_recognised elements _ _ H).
Defined.
